(** * Vastu Architect: layout planner and wall/door drafting engine

    A shallow embedding of [spatial_optimizer.py] (the layout planner
    [generate_layout]) and of the geometric core of [vastu_engine.py]
    (segment analysis, wall drawing and door placement of
    [generate_ai_detailed_plan]).

    Numbers.  The Python code computes with floats.  Here every number is
    an exact rational ([Q]); [==] on [Q] plays the role of Python's numeric
    [==].  Rounding error is therefore not modelled: each statement below
    is about the arithmetic the code writes down, evaluated exactly.  The
    length of a segment, a square root, is compared through its square;
    where a statement speaks of the length itself it is the real number
    [sqrt] of the Standard Library.

    Exceptions.  Python's [/] raises [ZeroDivisionError] on a zero divisor
    and [d[k]] raises [KeyError] on a missing key; both are kept, in a small
    error monad.

    Objects.  [generate_layout] writes [current_poly] and [center] into the
    [Room] objects it was given and returns those objects.  The model works
    on values: each entry of [requirements] is taken to be an object of its
    own, which is how [vastu_app.py] builds the list. *)

From Stdlib Require Import QArith Qround Qminmax ZArith List String Ascii Bool.
From Stdlib Require Import Reals Qreals Lia Psatz Permutation Sorted SetoidList.
Import ListNotations.

Local Open Scope Q_scope.

(** ** A small error monad *)

Inductive exn : Type :=
| ZeroDivisionError
| KeyError.

Inductive result (A : Type) : Type :=
| Ok (a : A)
| Raise (e : exn).

Arguments Ok {A} a.
Arguments Raise {A} e.

Definition bind {A B : Type} (m : result A) (k : A -> result B) : result B :=
  match m with
  | Ok a => k a
  | Raise e => Raise e
  end.

Notation "x <- m ;; k" := (bind m (fun x => k))
  (at level 61, m at next level, right associativity).

(** Python's true division [a / b]. *)
Definition pydiv (a b : Q) : result Q :=
  if Qeq_bool b 0 then Raise ZeroDivisionError else Ok (a / b).

(** Python's [sum(xs)]: a left fold that starts from [0]. *)
Definition sum (xs : list Q) : Q := fold_left Qplus xs 0.

(** ** Strings: [str.lower] and the substring test [x in s] *)

Definition lower_ascii (c : ascii) : ascii :=
  let n := nat_of_ascii c in
  if (Nat.leb 65 n && Nat.leb n 90)%bool then ascii_of_nat (n + 32) else c.

Fixpoint lower (s : string) : string :=
  match s with
  | EmptyString => EmptyString
  | String c s' => String (lower_ascii c) (lower s')
  end.

(** [contains x s] is Python's [x in s]. *)
Fixpoint contains (x s : string) : bool :=
  if String.prefix x s then true
  else match s with
       | EmptyString => false
       | String _ s' => contains x s'
       end.

(** ** Geometry primitives (the part of shapely the code uses) *)

Definition Point : Type := (Q * Q)%type.

(** The exterior ring of a polygon: a closed list of vertices. *)
Definition Polygon : Type := list Point.

(** [shapely.geometry.box(minx, miny, maxx, maxy)]: the counter-clockwise
    ring that starts at the lower right corner.  It is the ring of a box
    with [minx < maxx] and [miny < maxy]; of a box without width or height
    shapely keeps fewer coordinates, so what is said below of the number of
    vertices or edges of a room is said of rooms of positive size. *)
Definition box (minx miny maxx maxy : Q) : Polygon :=
  [ (maxx, miny); (maxx, maxy); (minx, maxy); (minx, miny); (maxx, miny) ].

Definition Qmin_list (d : Q) (xs : list Q) : Q :=
  match xs with
  | [] => d
  | x :: xs' => fold_left Qmin xs' x
  end.

Definition Qmax_list (d : Q) (xs : list Q) : Q :=
  match xs with
  | [] => d
  | x :: xs' => fold_left Qmax xs' x
  end.

(** [poly.bounds]: [(minx, miny, maxx, maxy)] over the vertices. *)
Definition bounds (poly : Polygon) : Q * Q * Q * Q :=
  let xs := map fst poly in
  let ys := map snd poly in
  (Qmin_list 0 xs, Qmin_list 0 ys, Qmax_list 0 xs, Qmax_list 0 ys).

Definition minx (poly : Polygon) : Q := let '(a, _, _, _) := bounds poly in a.
Definition miny (poly : Polygon) : Q := let '(_, b, _, _) := bounds poly in b.
Definition maxx (poly : Polygon) : Q := let '(_, _, c, _) := bounds poly in c.
Definition maxy (poly : Polygon) : Q := let '(_, _, _, d) := bounds poly in d.

(** [poly.centroid] of a rectangle: the midpoint of its bounds. *)
Definition centroid (poly : Polygon) : Point :=
  ((minx poly + maxx poly) / 2, (miny poly + maxy poly) / 2).

Definition area (poly : Polygon) : Q :=
  (maxx poly - minx poly) * (maxy poly - miny poly).

(** ** Data model of [spatial_optimizer.py] *)

Record Room : Type := mkRoom {
  name : string;
  min_w : Q;
  min_d : Q;
  max_w : Q;
  max_d : Q;
  priority : nat;
  layer : string;
  current_poly : option Polygon;
  center : option Point
}.

(** [Room(name, min_dim, max_dim)] with the default priority and layer. *)
Definition new_Room (nm : string) (min_dim max_dim : Q * Q) : Room :=
  mkRoom nm (fst min_dim) (snd min_dim) (fst max_dim) (snd max_dim)
         1 "A-WALL" None None.

Record VastuConstraint : Type := mkVastuConstraint {
  room_name : string;
  allowed : list string;
  forbidden : list string
}.

(** The two assignments [room.current_poly = poly; room.center = ...]. *)
Definition place (room : Room) (poly : Polygon) : Room :=
  mkRoom (name room) (min_w room) (min_d room) (max_w room) (max_d room)
         (priority room) (layer room) (Some poly) (Some (centroid poly)).

(** ** The layout planner *)

(** Step 1: the row of a room, from its lower-cased name. *)
Definition is_top (room : Room) : bool :=
  let n := lower (name room) in
  contains "living" n || contains "hall" n || contains "toilet" n
  || contains "bath" n || contains "north" n || contains "nw" n
  || contains "ne" n.

(** The classification loop; returns [(top_rooms, bottom_rooms)]. *)
Fixpoint classify (requirements : list Room) : list Room * list Room :=
  match requirements with
  | [] => ([], [])
  | room :: rest =>
      let '(top_rooms, bottom_rooms) := classify rest in
      if is_top room then (room :: top_rooms, bottom_rooms)
      else (top_rooms, room :: bottom_rooms)
  end.

(** Step 2: the left-to-right key. *)
Definition sort_key (r : Room) : nat :=
  let n := lower (name r) in
  if contains "toilet" n then 0%nat
  else if contains "living" n then 1%nat
  else if contains "master" n then 0%nat
  else if contains "kitchen" n then 1%nat
  else 2%nat.

(** [list.sort(key=...)] is a stable ascending sort. *)
Fixpoint insert_by {A : Type} (key : A -> nat) (x : A) (l : list A) : list A :=
  match l with
  | [] => [x]
  | y :: l' =>
      if Nat.leb (key x) (key y) then x :: y :: l'
      else y :: insert_by key x l'
  end.

Definition sort_by {A : Type} (key : A -> nat) (l : list A) : list A :=
  fold_right (insert_by key) [] l.

Definition rep_w (r : Room) : Q := (min_w r + max_w r) / 2.
Definition rep_d (r : Room) : Q := (min_d r + max_d r) / 2.

Definition len {A : Type} (l : list A) : Q := inject_Z (Z.of_nat (List.length l)).

(** [sum([...rep_d...]) / len(rooms) if rooms else 0] *)
Definition avg_d (rooms : list Room) : result Q :=
  match rooms with
  | [] => Ok 0
  | _ => pydiv (sum (map rep_d rooms)) (len rooms)
  end.

(** [sum([...rep_w...]) if rooms else 1] *)
Definition total_w (rooms : list Room) : Q :=
  match rooms with
  | [] => 1
  | _ => sum (map rep_w rooms)
  end.

(** One row loop, [for i, room in enumerate(rooms)]: the rooms still to be
    visited, the index [i] of the first of them, the row length [n], the
    running [current_x] and the list [placed_rooms] built so far.  The row
    spans [y0 .. y1]. *)
Fixpoint place_row (p_w total y0 y1 : Q) (n i : nat) (rooms : list Room)
         (current_x : Q) (placed_rooms : list Room) : result (list Room) :=
  match rooms with
  | [] => Ok placed_rooms
  | room :: rest =>
      let w_req := rep_w room in
      share <- pydiv w_req total ;;
      let render_w := share * p_w in
      let end_x := if Nat.eqb i (n - 1) then p_w else current_x + render_w in
      let poly := box current_x y0 end_x y1 in
      place_row p_w total y0 y1 n (S i) rest end_x
                (placed_rooms ++ [place room poly])
  end.

(** Steps 1 and 2 together: the two rows, each in left-to-right order. *)
Definition top_rooms_of (requirements : list Room) : list Room :=
  sort_by sort_key (fst (classify requirements)).

Definition bottom_rooms_of (requirements : list Room) : list Room :=
  sort_by sort_key (snd (classify requirements)).

(** Step 3: [h_top], the height of the top row. *)
Definition h_top_of (p_d : Q) (top_rooms bottom_rooms : list Room) : result Q :=
  avg_d_top <- avg_d top_rooms ;;
  avg_d_bottom <- avg_d bottom_rooms ;;
  let total_avg_d := avg_d_top + avg_d_bottom in
  let total_avg_d := if Qeq_bool total_avg_d 0 then 1 else total_avg_d in
  ratio <- pydiv avg_d_top total_avg_d ;;
  Ok (ratio * p_d).

Definition generate_layout (plot_size : Q * Q) (requirements : list Room)
           (constraints : list VastuConstraint) : result (list Room) :=
  let '(p_w, p_d) := plot_size in
  let top_rooms := top_rooms_of requirements in
  let bottom_rooms := bottom_rooms_of requirements in
  h_top <- h_top_of p_d top_rooms bottom_rooms ;;
  let h_bottom := p_d - h_top in
  placed_rooms <- place_row p_w (total_w bottom_rooms) 0 h_bottom
                            (List.length bottom_rooms) 0 bottom_rooms 0 [] ;;
  place_row p_w (total_w top_rooms) h_bottom p_d
            (List.length top_rooms) 0 top_rooms 0 placed_rooms.

(** The scenario of the specification. *)
Definition scenario_rooms : list Room :=
  [ new_Room "Living" (3.6, 4.0) (5.4, 6.0);
    new_Room "Kitchen" (2.4, 2.8) (3.6, 4.2);
    new_Room "MasterBed" (3.2, 3.6) (4.8, 5.4);
    new_Room "Toilet" (1.44, 2.0) (2.16, 3.0) ].

Definition scenario_plot : Q * Q := (12, 15).

(** ** Segments of [vastu_engine.py] *)

Definition Qltb (x y : Q) : bool := negb (Qle_bool y x).

(** Python's [round(x)] for an exact tie goes to the even neighbour. *)
Definition round_half_even (x : Q) : Z :=
  let f := Qfloor x in
  match Qcompare (x - inject_Z f) (1 # 2) with
  | Lt => f
  | Gt => (f + 1)%Z
  | Eq => if Z.even f then f else (f + 1)%Z
  end.

(** [round(x, 3)] *)
Definition round3 (x : Q) : Q := round_half_even (x * 1000) # 1000.

Definition Segment : Type := (Point * Point)%type.

(** [==] and [<] of Python on 2-tuples of numbers. *)
Definition point_eqb (a b : Point) : bool :=
  Qeq_bool (fst a) (fst b) && Qeq_bool (snd a) (snd b).

Definition point_ltb (a b : Point) : bool :=
  if negb (Qeq_bool (fst a) (fst b)) then Qltb (fst a) (fst b)
  else if negb (Qeq_bool (snd a) (snd b)) then Qltb (snd a) (snd b)
  else false.

Definition seg_eqb (s t : Segment) : bool :=
  point_eqb (fst s) (fst t) && point_eqb (snd s) (snd t).

(** [tuple(sorted([a, b]))] *)
Definition sorted2 (a b : Point) : Segment :=
  if point_ltb b a then (b, a) else (a, b).

Definition round_point (p : Point) : Point := (round3 (fst p), round3 (snd p)).

(** The canonical segment of an edge [p1 -> p2]. *)
Definition canonical (p1 p2 : Point) : Segment :=
  sorted2 (round_point p1) (round_point p2).

(** ** Dictionaries, in insertion order *)

Section Dict.
Context {K V : Type}.
Variable eqb : K -> K -> bool.

Fixpoint dict_get (d : list (K * V)) (k : K) : option V :=
  match d with
  | [] => None
  | (k', v) :: d' => if eqb k' k then Some v else dict_get d' k
  end.

(** [d[k] = v]: an existing key keeps its place. *)
Fixpoint dict_set (d : list (K * V)) (k : K) (v : V) : list (K * V) :=
  match d with
  | [] => [(k, v)]
  | (k', v') :: d' =>
      if eqb k' k then (k', v) :: d' else (k', v') :: dict_set d' k v
  end.

(** [d[k]] *)
Definition dict_item (d : list (K * V)) (k : K) : result V :=
  match dict_get d k with
  | Some v => Ok v
  | None => Raise KeyError
  end.
End Dict.

(** [x in s] for a set kept as a list. *)
Definition set_mem (s : list Segment) (x : Segment) : bool :=
  existsb (seg_eqb x) s.

Definition set_add (s : list Segment) (x : Segment) : list Segment :=
  if set_mem s x then s else s ++ [x].

(** ** Step 1 of [generate_ai_detailed_plan]: segment analysis *)

Inductive seg_type : Type :=
| exterior
| interior.

Definition seg_type_eqb (a b : seg_type) : bool :=
  match a, b with
  | exterior, exterior | interior, interior => true
  | _, _ => false
  end.

Definition DrawnSegments : Type := list (Segment * seg_type).
Definition RoomSegments : Type := list (string * list Segment).

(** The four-way boundary test on the unrounded end points. *)
Definition is_ext (plot_width plot_height : Q) (p1 p2 : Point) : bool :=
  (Qle_bool (fst p1) 0.01 && Qle_bool (fst p2) 0.01)
  || (Qle_bool (plot_width - 0.01) (fst p1)
      && Qle_bool (plot_width - 0.01) (fst p2))
  || (Qle_bool (snd p1) 0.01 && Qle_bool (snd p2) 0.01)
  || (Qle_bool (plot_height - 0.01) (snd p1)
      && Qle_bool (plot_height - 0.01) (snd p2)).

(** [(points[i], points[i+1]) for i in range(len(points) - 1)] *)
Fixpoint edges (points : list Point) : list (Point * Point) :=
  match points with
  | p1 :: rest =>
      match rest with
      | p2 :: _ => (p1, p2) :: edges rest
      | [] => []
      end
  | [] => []
  end.

(** The update of [drawn_segments] for one edge. *)
Definition record_segment (drawn : DrawnSegments) (seg : Segment)
           (ext : bool) : DrawnSegments :=
  match dict_get seg_eqb drawn seg with
  | None => dict_set seg_eqb drawn seg (if ext then exterior else interior)
  | Some _ => if ext then dict_set seg_eqb drawn seg exterior else drawn
  end.

(** The body of the inner loop: [segs] is the list object stored under
    [room_segments[room.name]], which the loop appends to. *)
Definition analyse_edge (plot_width plot_height : Q)
           (st : DrawnSegments * list Segment) (e : Point * Point)
  : DrawnSegments * list Segment :=
  let '(drawn, segs) := st in
  let '(p1, p2) := e in
  let seg := canonical p1 p2 in
  (record_segment drawn seg (is_ext plot_width plot_height p1 p2),
   segs ++ [seg]).

(** The body of the outer loop.  [room_segments[room.name] = []] fixes the
    place of the key; the appended list is stored under it. *)
Definition analyse_room (plot_width plot_height : Q)
           (st : DrawnSegments * RoomSegments) (room : Room)
  : DrawnSegments * RoomSegments :=
  let '(drawn, room_segments) := st in
  match current_poly room with
  | None => st
  | Some points =>
      let room_segments := dict_set String.eqb room_segments (name room) [] in
      let '(drawn, segs) :=
        fold_left (analyse_edge plot_width plot_height) (edges points)
                  (drawn, []) in
      (drawn, dict_set String.eqb room_segments (name room) segs)
  end.

Definition segment_analysis (rooms : list Room) (plot_width plot_height : Q)
  : DrawnSegments * RoomSegments :=
  fold_left (analyse_room plot_width plot_height) rooms ([], []).

(** ** Drawing entities

    The model space [msp] is the list of entities added so far.  The code
    needs [math.sqrt] in two ways.  Where it compares a length with a
    constant ([L < c]) the comparison is made exactly, on the square of the
    length.  Where it divides by the length (the unit normal of a centred
    wall, the leaf and the arc of a door) the entity is kept symbolic: it
    records the end points and the thickness or width it was drawn from. *)

Inductive Entity : Type :=
| Line (p q : Point) (lyr : string)
| Hatch (path : list Point) (lyr : string)
| CenteredWall (p1 p2 : Point) (thickness : Q)
| DoorLeaf (p1 p2 : Point) (width : Q)
| DoorSwing (p1 p2 : Point) (width : Q).

(** [dx**2 + dy**2], the square of the length of [p1 -> p2]. *)
Definition dist2 (p1 p2 : Point) : Q :=
  let dx := fst p2 - fst p1 in
  let dy := snd p2 - snd p1 in
  dx ^ 2 + dy ^ 2.

(** [math.sqrt(s) < c], for [0 <= s]. *)
Definition sqrt_ltb (s c : Q) : bool := Qltb 0 c && Qltb s (c * c).

Definition draw_wall_with_hatch (msp : list Entity) (p1 p2 : Point)
           (thickness : Q) (offset_dir : option (Q * Q)) : list Entity :=
  if sqrt_ltb (dist2 p1 p2) 0.001 then msp
  else
    match offset_dir with
    | None => msp ++ [CenteredWall p1 p2 thickness]
    | Some (vx, vy) =>
        let o1 := p1 in
        let o2 := p2 in
        let i1 := (fst p1 + vx * thickness, snd p1 + vy * thickness) in
        let i2 := (fst p2 + vx * thickness, snd p2 + vy * thickness) in
        msp ++ [ Line o1 o2 "A-WALL"; Line i1 i2 "A-WALL";
                 Hatch [o1; o2; i2; i1; o1] "A-WALL-PATT" ]
    end.

(** Returns the new model space and the Boolean the code returns. *)
Definition add_door_swing (msp : list Entity) (p1 p2 : Point) (width : Q)
  : list Entity * bool :=
  if sqrt_ltb (dist2 p1 p2) (width + 0.2) then (msp, false)
  else (msp ++ [DoorLeaf p1 p2 width; DoorSwing p1 p2 width], true).

Definition WALL_THICKNESS : Q := 0.23.

(** ** Step 2: walls *)

(** The [if / elif] chain on the first end point of an exterior segment. *)
Definition offset_dir_of (plot_width plot_height : Q) (p1 : Point) : Q * Q :=
  if Qle_bool (fst p1) 0.01 then (1, 0)
  else if Qle_bool (plot_width - 0.01) (fst p1) then (-1, 0)
  else if Qle_bool (snd p1) 0.01 then (0, 1)
  else if Qle_bool (plot_height - 0.01) (snd p1) then (0, -1)
  else (0, 0).

Definition draw_segment (plot_width plot_height : Q) (msp : list Entity)
           (item : Segment * seg_type) : list Entity :=
  let '(seg, s_type) := item in
  let p1 := fst seg in
  let p2 := snd seg in
  match s_type with
  | exterior =>
      draw_wall_with_hatch msp p1 p2 WALL_THICKNESS
                           (Some (offset_dir_of plot_width plot_height p1))
  | interior => draw_wall_with_hatch msp p1 p2 WALL_THICKNESS None
  end.

Definition draw_walls (plot_width plot_height : Q) (drawn : DrawnSegments)
           (msp : list Entity) : list Entity :=
  fold_left (draw_segment plot_width plot_height) drawn msp.

(** ** Step 3: interior doors *)

(** [segments.sort(key=lambda s: math.dist(s[0], s[1]), reverse=True)]:
    stable, longest first; lengths are compared through their squares. *)
Fixpoint insert_longest (x : Segment) (l : list Segment) : list Segment :=
  match l with
  | [] => [x]
  | y :: l' =>
      if Qle_bool (dist2 (fst y) (snd y)) (dist2 (fst x) (snd x))
      then x :: y :: l'
      else y :: insert_longest x l'
  end.

Definition sort_longest_first (l : list Segment) : list Segment :=
  fold_right insert_longest [] l.

Record DoorState : Type := mkDoorState {
  placed_doors : list Segment;
  door_log : list (string * Segment);
  door_msp : list Entity
}.

(** The inner loop over the sorted segments of one room.  [door_log] is
    ghost state: it notes which room placed a door on which segment. *)
Fixpoint try_segments (drawn : DrawnSegments) (room_name : string)
         (segments : list Segment) (st : DoorState) : result DoorState :=
  match segments with
  | [] => Ok st
  | seg :: rest =>
      s_type <- dict_item seg_eqb drawn seg ;;
      if seg_type_eqb s_type interior && negb (set_mem (placed_doors st) seg)
      then
        let '(msp, placed) :=
          add_door_swing (door_msp st) (fst seg) (snd seg) 0.9 in
        if placed
        then Ok (mkDoorState (set_add (placed_doors st) seg)
                             (door_log st ++ [(room_name, seg)]) msp)
        else try_segments drawn room_name rest
                          (mkDoorState (placed_doors st) (door_log st) msp)
      else try_segments drawn room_name rest st
  end.

Fixpoint place_doors (drawn : DrawnSegments) (room_segments : RoomSegments)
         (st : DoorState) : result DoorState :=
  match room_segments with
  | [] => Ok st
  | (room_name, segments) :: rest =>
      st' <- try_segments drawn room_name (sort_longest_first segments) st ;;
      place_doors drawn rest st'
  end.

(** ** [generate_ai_detailed_plan], steps 1 to 3

    The annotations, the north arrow and the serialisation of the document
    add text and dimension entities only and are left out. *)

Record Plan : Type := mkPlan {
  drawn_segments : DrawnSegments;
  room_segments : RoomSegments;
  doors : DoorState
}.

Definition generate_ai_detailed_plan (rooms : list Room)
           (plot_width plot_height : Q) (client_name : string) : result Plan :=
  let '(drawn, rsegs) := segment_analysis rooms plot_width plot_height in
  let msp := draw_walls plot_width plot_height drawn [] in
  st <- place_doors drawn rsegs (mkDoorState [] [] msp) ;;
  Ok (mkPlan drawn rsegs st).

(** ** Vocabulary of the properties *)

(** The invariant of a room request: positive minimum and maximum
    dimensions. *)
Definition valid_room (r : Room) : Prop :=
  0 < min_w r /\ 0 < min_d r /\ 0 < max_w r /\ 0 < max_d r.

(** A run that ends in an exception. *)
Definition aborts {A : Type} (r : result A) : Prop := exists e, r = Raise e.

(** The rectangle of a placed room. *)
Definition rect_of (r : Room) : Polygon :=
  match current_poly r with
  | Some poly => poly
  | None => []
  end.

Definition width_of (r : Room) : Q := maxx (rect_of r) - minx (rect_of r).
Definition height_of (r : Room) : Q := maxy (rect_of r) - miny (rect_of r).



Definition in_plot (p_w p_d : Q) (pt : Point) : Prop :=
  (0 <= fst pt /\ fst pt <= p_w) /\ (0 <= snd pt /\ snd pt <= p_d).




(** What one row loop builds, told by position in the row: every room but
    the last ends at [current_x + render_w], the last one at [p_w]. *)
Fixpoint row_boxes (p_w total y0 y1 current_x : Q) (rooms : list Room)
  : list Room :=
  match rooms with
  | [] => []
  | room :: rest =>
      match rest with
      | [] => [place room (box current_x y0 p_w y1)]
      | _ :: _ =>
          let end_x := current_x + rep_w room / total * p_w in
          place room (box current_x y0 end_x y1)
          :: row_boxes p_w total y0 y1 end_x rest
      end
  end.


(** One room that fills the plot 12 x 15 by itself. *)
Definition hall_rooms : list Room := [ new_Room "Hall" (3.6, 4.0) (5.4, 6.0) ].

(** The edges a room contributes to the segment analysis. *)
Definition room_edges (room : Room) : list (Point * Point) :=
  match current_poly room with
  | Some points => edges points
  | None => []
  end.

Definition contributions (rooms : list Room) : list (Point * Point) :=
  flat_map room_edges rooms.

(** The edge [e] is an edge of the canonical segment [seg]. *)
Definition contributes (seg : Segment) (e : Point * Point) : bool :=
  seg_eqb (canonical (fst e) (snd e)) seg.

(** The classification a list of edges gives to a segment: exterior as
    soon as one of its edges lies on the plot boundary. *)
Definition classification (plot_width plot_height : Q)
           (es : list (Point * Point)) (seg : Segment) : option seg_type :=
  if existsb (fun e => contributes seg e
                       && is_ext plot_width plot_height (fst e) (snd e)) es
  then Some exterior
  else if existsb (contributes seg) es then Some interior
  else None.

(** The update of [drawn_segments] by one edge. *)
Definition record_edge (plot_width plot_height : Q) (drawn : DrawnSegments)
           (e : Point * Point) : DrawnSegments :=
  record_segment drawn (canonical (fst e) (snd e))
                 (is_ext plot_width plot_height (fst e) (snd e)).

(** The type of a segment recorded as [a] once further edges have
    classified it as [b]. *)
Definition merge_type (a b : option seg_type) : option seg_type :=
  match a, b with
  | Some exterior, _ => Some exterior
  | _, Some exterior => Some exterior
  | Some interior, _ => Some interior
  | None, _ => b
  end.

(** The placed rooms of the scenario. *)
Definition scenario_placed : list Room :=
  match generate_layout scenario_plot scenario_rooms [] with
  | Ok placed => placed
  | Raise _ => []
  end.

(** Doors in a finished plan: the door leaves drawn on a segment, and the
    doors a room has placed. *)
Definition is_leaf_on (seg : Segment) (e : Entity) : bool :=
  match e with
  | DoorLeaf p1 p2 _ => seg_eqb (p1, p2) seg
  | _ => false
  end.

Definition leaves_on (plan : Plan) (seg : Segment) : nat :=
  List.length (filter (is_leaf_on seg) (door_msp (doors plan))).

Definition doors_on (plan : Plan) (seg : Segment) : nat :=
  List.length (filter (fun d => seg_eqb (snd d) seg) (door_log (doors plan))).

Definition doors_of_room (plan : Plan) (room_name : string) : nat :=
  List.length (filter (fun d => String.eqb (fst d) room_name)
                      (door_log (doors plan))).

(** The Euclidean length of a segment, as a real number. *)
Definition length_R (p1 p2 : Point) : R := sqrt (Q2R (dist2 p1 p2)).

(** ** The other functions of [spatial_optimizer.py] *)

(** [get_quadrant_centers]: the dictionary literal, in the order it is
    written. *)
Definition get_quadrant_centers (plot_width plot_depth : Q)
  : list (string * Point) :=
  let w_step := plot_width / 3 in
  let d_step := plot_depth / 3 in
  [ ("SW"%string, (w_step * 0.5, d_step * 0.5));
    ("S"%string, (w_step * 1.5, d_step * 0.5));
    ("SE"%string, (w_step * 2.5, d_step * 0.5));
    ("W"%string, (w_step * 0.5, d_step * 1.5));
    ("C"%string, (w_step * 1.5, d_step * 1.5));
    ("E"%string, (w_step * 2.5, d_step * 1.5));
    ("NW"%string, (w_step * 0.5, d_step * 2.5));
    ("N"%string, (w_step * 1.5, d_step * 2.5));
    ("NE"%string, (w_step * 2.5, d_step * 2.5)) ].

(** [get_walls_from_rooms]: the loop over the rooms with the list [lines]
    built so far.  [None] is the AttributeError of [r.current_poly.exterior]
    on a room whose [current_poly] is [None]. *)
Fixpoint walls_loop (rooms : list Room) (lines : list (Point * Point))
  : option (list (Point * Point)) :=
  match rooms with
  | [] => Some lines
  | r :: rest =>
      match current_poly r with
      | None => None
      | Some points => walls_loop rest (lines ++ edges points)
      end
  end.

Definition get_walls_from_rooms (rooms : list Room)
  : option (list (Point * Point)) :=
  walls_loop rooms [].

(** ** The room list of [vastu_app.py] *)

(** One entry of [st.session_state.room_list]. *)
Record RoomConfig : Type := mkRoomConfig {
  cfg_name : string;
  cfg_w : Q;
  cfg_d : Q
}.

(** [Room(r['name'], (r['w']*0.8, r['d']*0.8), (r['w']*1.2, r['d']*1.2))] *)
Definition room_of_config (r : RoomConfig) : Room :=
  new_Room (cfg_name r) (cfg_w r * 0.8, cfg_d r * 0.8)
           (cfg_w r * 1.2, cfg_d r * 1.2).

Definition rooms_req (room_list : list RoomConfig) : list Room :=
  map room_of_config room_list.

(** ** [ConstraintExtractor.extract_constraints] without a language model

    The path the method takes when [self.llm] is [None] (no API key) or the
    call of the model fails. *)

Record Rule : Type := mkRule {
  rule_room : string;
  allowed_quadrants : list string;
  rule_forbidden : list string
}.

Definition extract_constraints (room_name context_text : string) : Rule :=
  let allowed : list string := [] in
  let context_lower := lower context_text in
  let allowed :=
    if contains "south east" context_lower || contains "southeast" context_lower
    then allowed ++ ["SE"%string] else allowed in
  let allowed :=
    if contains "north east" context_lower || contains "northeast" context_lower
    then allowed ++ ["NE"%string] else allowed in
  let allowed :=
    if contains "south west" context_lower || contains "southwest" context_lower
    then allowed ++ ["SW"%string] else allowed in
  let allowed :=
    if contains "north west" context_lower || contains "northwest" context_lower
    then allowed ++ ["NW"%string] else allowed in
  let allowed :=
    match allowed with
    | [] =>
        if contains "kitchen" (lower room_name) then ["SE"%string]
        else if contains "bedroom" (lower room_name) then ["SW"%string]
        else if contains "living" (lower room_name)
             then ["NE"%string; "N"%string]
        else if contains "toilet" (lower room_name)
             then ["NW"%string; "W"%string]
        else allowed
    | _ :: _ => allowed
    end in
  mkRule room_name allowed [].

(** ** The layer table of [setup_layers] *)

Record Layer : Type := mkLayer {
  layer_name : string;
  layer_color : Z;
  layer_linetype : string;
  layer_lineweight : Z
}.

(** The list [layers] of [setup_layers]. *)
Definition AIA_LAYERS : list Layer :=
  [ mkLayer "A-WALL" 7 "CONTINUOUS" 50;
    mkLayer "A-WALL-PATT" 8 "CONTINUOUS" 15;
    mkLayer "A-DOOR" 4 "CONTINUOUS" 25;
    mkLayer "A-DOOR-SWING" 3 "DASHED" 13;
    mkLayer "A-GLAZ" 4 "CONTINUOUS" 25;
    mkLayer "A-ANNO-DIMS" 6 "CONTINUOUS" 15;
    mkLayer "A-ANNO-TEXT" 2 "CONTINUOUS" 18;
    mkLayer "A-ANNO-NRTH" 2 "CONTINUOUS" 18 ].

Section Layers.
(** The key under which the layer table of the document files a name. *)
Variable table_key : string -> string.

(** [name in doc.layers] *)
Definition has_layer (layers : list Layer) (nm : string) : bool :=
  existsb (fun l => String.eqb (table_key (layer_name l)) (table_key nm))
          layers.

(** [doc.layers.add(name, ...)]: [None] is the error of the table on a name
    it already holds. *)
Definition layers_add (layers : list Layer) (l : Layer)
  : option (list Layer) :=
  if has_layer layers (layer_name l) then None else Some (layers ++ [l]).

(** The loop of [setup_layers] over the layers still to be visited. *)
Fixpoint setup_loop (todo : list Layer) (layers : list Layer)
  : option (list Layer) :=
  match todo with
  | [] => Some layers
  | l :: rest =>
      if negb (has_layer layers (layer_name l))
      then match layers_add layers l with
           | Some layers' => setup_loop rest layers'
           | None => None
           end
      else setup_loop rest layers
  end.

Definition setup_layers (layers : list Layer) : option (list Layer) :=
  setup_loop AIA_LAYERS layers.
End Layers.

(** The layers of the lines, hatches and arcs an entity stands for. *)
Definition entity_layers (e : Entity) : list string :=
  match e with
  | Line _ _ lyr => [lyr]
  | Hatch _ lyr => [lyr]
  | CenteredWall _ _ _ => ["A-WALL"; "A-WALL"; "A-WALL-PATT"]%string
  | DoorLeaf _ _ _ => ["A-DOOR"%string]
  | DoorSwing _ _ _ => ["A-DOOR-SWING"%string]
  end.

(** ** Step 4 of [generate_ai_detailed_plan]: annotations *)

(** The text of a label: a string, or the [f"{x:.2f}m"] of a number, kept as
    the number. *)
Inductive Label : Type :=
| Str (s : string)
| Metres (x : Q).

Inductive Annotation : Type :=
| Text (content : Label) (height : Q) (lyr : string) (color : option Z)
       (placement : Point)
| LinearDim (base p1 p2 : Point) (lyr : string)
| Circle (centre : Point) (radius : Q) (lyr : string)
| Solid (pts : list Point) (lyr : string).

(** Python's [min(a, b)]. *)
Definition pymin (a b : Q) : Q := if Qltb b a then b else a.

Definition add_dimension (msp : list Annotation) (p1 p2 base_point : Point)
  : list Annotation :=
  msp ++ [LinearDim base_point p1 p2 "A-ANNO-DIMS"].

Definition draw_north_arrow (msp : list Annotation) (x y size : Q)
  : list Annotation :=
  let arrow_top := (x, y + size / 2) in
  let arrow_left := (x - size / 4, y - size / 4) in
  let arrow_right := (x + size / 4, y - size / 4) in
  msp ++ [ Circle (x, y) (size / 2) "A-ANNO-NRTH";
           Text (Str "N") (size / 2) "A-ANNO-NRTH" None
                (x, y + size / 2 + 0.15);
           Solid [arrow_top; arrow_left; arrow_right] "A-ANNO-NRTH" ].

(** The truth value of [room.current_poly]: [None] is false, and so is a
    polygon that is empty (a shapely geometry is true when it is not
    empty). *)
Definition has_polygon (room : Room) : bool :=
  match current_poly room with
  | Some (_ :: _) => true
  | _ => false
  end.

(** The body of the loop of step 4.  [if not room.current_poly: continue]
    passes over a room without a polygon and a room whose polygon is empty.
    [None] is the TypeError of [cx, cy = room.center] on a room whose
    [center] is [None]. *)
Definition annotate_room (msp : list Annotation) (room : Room)
  : option (list Annotation) :=
  match current_poly room with
  | None | Some [] => Some msp
  | Some poly =>
      match center room with
      | None => None
      | Some (cx, cy) =>
          let '(minx, miny, maxx, maxy) := bounds poly in
          let rw := maxx - minx in
          let rd := maxy - miny in
          let msp :=
            msp ++ [Text (Str (name room)) (pymin rw rd * 0.08)
                         "A-ANNO-TEXT" None (cx, cy)] in
          let msp :=
            if Qle_bool miny 0.01
            then add_dimension msp (minx, miny) (maxx, miny) (cx, -2.2)
                 ++ [Text (Metres rw) 0.4 "A-ANNO-DIMS" (Some 6%Z)
                          (cx, -2.5)]
            else msp in
          let msp :=
            if Qle_bool minx 0.01
            then add_dimension msp (minx, miny) (minx, maxy) (-2.2, cy)
                 ++ [Text (Metres rd) 0.4 "A-ANNO-DIMS" (Some 6%Z)
                          (-2.5, cy)]
            else msp in
          Some msp
      end
  end.

Fixpoint annotate_rooms (rooms : list Room) (msp : list Annotation)
  : option (list Annotation) :=
  match rooms with
  | [] => Some msp
  | room :: rest =>
      match annotate_room msp room with
      | Some msp' => annotate_rooms rest msp'
      | None => None
      end
  end.

(** Step 4 and the north arrow that follows it. *)
Definition annotate (rooms : list Room) (plot_width plot_height : Q)
  : option (list Annotation) :=
  match annotate_rooms rooms [] with
  | Some msp =>
      Some (draw_north_arrow msp (plot_width + 2) (plot_height - 1) 1.5)
  | None => None
  end.

(** ** Vocabulary of the further properties *)

(** The request a room stands for: the room without its placement. *)
Definition request_of (r : Room) : Room :=
  mkRoom (name r) (min_w r) (min_d r) (max_w r) (max_d r)
         (priority r) (layer r) None None.

(** The row the planner puts a room in. *)
Definition row_of (reqs : list Room) (r : Room) : list Room :=
  if is_top r then top_rooms_of reqs else bottom_rooms_of reqs.

(** The zone on the other side of the centre. *)
Definition opposite (zone : string) : string :=
  if String.eqb zone "SW" then "NE"
  else if String.eqb zone "S" then "N"
  else if String.eqb zone "SE" then "NW"
  else if String.eqb zone "W" then "E"
  else if String.eqb zone "E" then "W"
  else if String.eqb zone "NW" then "SE"
  else if String.eqb zone "N" then "S"
  else if String.eqb zone "NE" then "SW"
  else zone.

(** The drawing of the scenario. *)
Definition scenario_plan : Plan :=
  match generate_ai_detailed_plan scenario_placed 12 15 "client" with
  | Ok plan => plan
  | Raise _ => mkPlan [] [] (mkDoorState [] [] [])
  end.

(** The layer of an annotation. *)
Definition annotation_layer (a : Annotation) : string :=
  match a with
  | Text _ _ lyr _ _ => lyr
  | LinearDim _ _ _ lyr => lyr
  | Circle _ _ lyr => lyr
  | Solid _ lyr => lyr
  end.

(** The names of the rooms on the labels of a drawing: the strings of the
    texts on the layer of the room labels, in the order they were added. *)
Definition room_labels (msp : list Annotation) : list string :=
  flat_map (fun a => match a with
                     | Text (Str s) _ lyr _ _ =>
                         if String.eqb lyr "A-ANNO-TEXT" then [s] else []
                     | _ => []
                     end) msp.

(** Two points that differ by at most 0.0005 in each coordinate. *)
Definition near (a b : Point) : Prop :=
  (- (1 # 2000) <= fst a - fst b /\ fst a - fst b <= 1 # 2000)
  /\ (- (1 # 2000) <= snd a - snd b /\ snd a - snd b <= 1 # 2000).

(** * Properties *)

(** ** Arithmetic helpers *)

Lemma Qeq_bool_false_neq (x y : Q) : Qeq_bool x y = false -> ~ x == y.
Proof.
  intros H E. apply Qeq_bool_iff in E. congruence.
Qed.

Lemma Qltb_lt (x y : Q) : Qltb x y = true <-> x < y.
Proof.
  unfold Qltb. rewrite negb_true_iff. split.
  - intros H. apply Qnot_le_lt. intros L. apply Qle_bool_iff in L. congruence.
  - intros H. destruct (Qle_bool y x) eqn:E; [|reflexivity].
    apply Qle_bool_iff in E. lra.
Qed.

Lemma Qltb_ge (x y : Q) : Qltb x y = false <-> y <= x.
Proof.
  unfold Qltb. rewrite negb_false_iff. apply Qle_bool_iff.
Qed.

Lemma pydiv_ok (a b : Q) : ~ b == 0 -> pydiv a b = Ok (a / b).
Proof.
  intros H. unfold pydiv. destruct (Qeq_bool b 0) eqn:E; [|reflexivity].
  apply Qeq_bool_iff in E. contradiction.
Qed.

Lemma fold_left_Qplus (xs : list Q) (a : Q) :
  fold_left Qplus xs a == a + fold_left Qplus xs 0.
Proof.
  revert a. induction xs as [|x xs IH]; intros a; simpl.
  - lra.
  - rewrite (IH (a + x)), (IH (0 + x)). lra.
Qed.

Lemma sum_cons (x : Q) (xs : list Q) : sum (x :: xs) == x + sum xs.
Proof.
  unfold sum. simpl. rewrite fold_left_Qplus. lra.
Qed.


Lemma sum_nonneg (xs : list Q) : Forall (fun x => 0 <= x) xs -> 0 <= sum xs.
Proof.
  induction 1 as [|x xs Hx _ IH].
  - unfold sum. simpl. lra.
  - rewrite sum_cons. lra.
Qed.

Lemma sum_pos (xs : list Q) :
  xs <> [] -> Forall (fun x => 0 < x) xs -> 0 < sum xs.
Proof.
  intros Hne H. destruct H as [|x xs Hx Hxs]; [congruence|].
  rewrite sum_cons.
  assert (0 <= sum xs).
  { apply sum_nonneg. eapply Forall_impl; [|exact Hxs]. intros; simpl in *; lra. }
  lra.
Qed.

(** ** Rows: classification and ordering *)

Lemma insert_by_perm {A : Type} (key : A -> nat) (x : A) (l : list A) :
  Permutation (x :: l) (insert_by key x l).
Proof.
  induction l as [|y l IH]; simpl.
  - apply Permutation_refl.
  - destruct (Nat.leb (key x) (key y)).
    + apply Permutation_refl.
    + eapply perm_trans; [apply perm_swap|]. now apply perm_skip.
Qed.

Lemma sort_by_perm {A : Type} (key : A -> nat) (l : list A) :
  Permutation l (sort_by key l).
Proof.
  induction l as [|x l IH]; simpl.
  - apply perm_nil.
  - eapply perm_trans; [apply perm_skip, IH|]. apply insert_by_perm.
Qed.

Lemma classify_perm (l : list Room) :
  Permutation l (snd (classify l) ++ fst (classify l)).
Proof.
  induction l as [|r l IH]; simpl.
  - apply perm_nil.
  - destruct (classify l) as [t b]. simpl in IH.
    destruct (is_top r); simpl.
    + now apply Permutation_cons_app.
    + now apply perm_skip.
Qed.

(** The two rows hold the requested rooms, each exactly once. *)
Lemma rows_perm (l : list Room) :
  Permutation l (bottom_rooms_of l ++ top_rooms_of l).
Proof.
  eapply perm_trans; [apply classify_perm|].
  apply Permutation_app; apply sort_by_perm.
Qed.

Lemma rows_Forall (P : Room -> Prop) (l : list Room) :
  Forall P l -> Forall P (bottom_rooms_of l) /\ Forall P (top_rooms_of l).
Proof.
  intros H. apply Forall_app.
  eapply Permutation_Forall; [apply rows_perm|exact H].
Qed.

Lemma rows_length (l : list Room) :
  (List.length (bottom_rooms_of l) + List.length (top_rooms_of l))%nat
  = List.length l.
Proof.
  rewrite <- length_app. symmetry. apply Permutation_length, rows_perm.
Qed.

(** ** The row loop *)

Lemma place_row_boxes (p_w total y0 y1 : Q) (n : nat) (rooms : list Room) :
  ~ total == 0 ->
  forall (i : nat) (current_x : Q) (placed : list Room),
    (i + List.length rooms)%nat = n ->
    place_row p_w total y0 y1 n i rooms current_x placed
    = Ok (placed ++ row_boxes p_w total y0 y1 current_x rooms).
Proof.
  intros Ht. induction rooms as [|room rest IH]; intros i cx placed Hn.
  - simpl. now rewrite app_nil_r.
  - cbn [place_row]. rewrite (pydiv_ok _ _ Ht). cbn [bind].
    destruct rest as [|r2 rest'].
    + simpl in Hn. replace (Nat.eqb i (n - 1)) with true
        by (symmetry; apply Nat.eqb_eq; lia).
      reflexivity.
    + replace (Nat.eqb i (n - 1)) with false
        by (symmetry; apply Nat.eqb_neq; simpl in Hn; lia).
      rewrite IH by (simpl in *; lia).
      rewrite <- app_assoc. reflexivity.
Qed.

Lemma place_row_nil (p_w total y0 y1 : Q) (n i : nat) (cx : Q)
      (placed : list Room) :
  place_row p_w total y0 y1 n i [] cx placed = Ok placed.
Proof. reflexivity. Qed.

(** A non-empty row whose widths sum to zero stops the run. *)
Lemma place_row_zero_total (p_w y0 y1 total : Q) (n i : nat) (room : Room)
      (rest : list Room) (cx : Q) (placed : list Room) :
  total == 0 ->
  place_row p_w total y0 y1 n i (room :: rest) cx placed
  = Raise ZeroDivisionError.
Proof.
  intros H. cbn [place_row]. unfold pydiv.
  apply Qeq_bool_iff in H. now rewrite H.
Qed.

Lemma row_boxes_length (p_w total y0 y1 : Q) (rooms : list Room) :
  forall cx, List.length (row_boxes p_w total y0 y1 cx rooms)
             = List.length rooms.
Proof.
  induction rooms as [|r rest IH]; intros cx; [reflexivity|].
  destruct rest as [|r2 rest']; [reflexivity|].
  cbn [row_boxes]. cbn [List.length]. f_equal. apply (IH _).
Qed.

(** ** Validity of the rooms and the sums of the planner *)

Lemma valid_rep_w (r : Room) : valid_room r -> 0 < rep_w r.
Proof.
  unfold valid_room, rep_w. intros (H1 & _ & H2 & _).
  apply Qlt_shift_div_l; lra.
Qed.

Lemma valid_rep_d (r : Room) : valid_room r -> 0 < rep_d r.
Proof.
  unfold valid_room, rep_d. intros (_ & H1 & _ & H2).
  apply Qlt_shift_div_l; lra.
Qed.

Lemma total_w_pos (rooms : list Room) :
  Forall valid_room rooms -> 0 < total_w rooms.
Proof.
  intros H. destruct rooms as [|r rooms]; [reflexivity|].
  unfold total_w. apply sum_pos; [discriminate|].
  apply Forall_map. eapply Forall_impl; [|exact H]. apply valid_rep_w.
Qed.

Lemma len_pos {A : Type} (l : list A) : l <> [] -> 0 < len l.
Proof.
  intros H. destruct l; [congruence|].
  unfold len, Qlt. simpl. lia.
Qed.

Lemma avg_d_valid (rooms : list Room) :
  Forall valid_room rooms ->
  exists a, avg_d rooms = Ok a /\ 0 <= a /\ (rooms <> [] -> 0 < a).
Proof.
  intros H. destruct rooms as [|r rooms].
  - exists 0. repeat split; [lra|congruence].
  - assert (Hl : 0 < len (r :: rooms)) by (apply len_pos; discriminate).
    assert (Hs : 0 < sum (map rep_d (r :: rooms))).
    { apply sum_pos; [discriminate|]. apply Forall_map.
      eapply Forall_impl; [|exact H]. apply valid_rep_d. }
    exists (sum (map rep_d (r :: rooms)) / len (r :: rooms)).
    unfold avg_d. rewrite pydiv_ok by lra.
    assert (0 < sum (map rep_d (r :: rooms)) / len (r :: rooms))
      by (apply Qlt_shift_div_l; lra).
    repeat split; [lra|intros _; assumption].
Qed.

Lemma place_row_inv (p_w total y0 y1 : Q) (rooms placed res : list Room) :
  place_row p_w total y0 y1 (List.length rooms) 0 rooms 0 placed = Ok res ->
  res = placed ++ row_boxes p_w total y0 y1 0 rooms.
Proof.
  intros H. destruct rooms as [|r rest].
  - simpl in H. injection H as <-. now rewrite app_nil_r.
  - destruct (Qeq_bool total 0) eqn:E.
    + apply Qeq_bool_iff in E.
      rewrite (place_row_zero_total _ _ _ _ _ _ _ _ _ _ E) in H. discriminate.
    + apply Qeq_bool_false_neq in E.
      rewrite (place_row_boxes _ _ _ _ _ _ E 0%nat) in H by reflexivity.
      now injection H as <-.
Qed.

(** The shape of every successful run: the bottom row, then the top row. *)
Lemma generate_layout_inv (p_w p_d : Q) (reqs : list Room)
      (c : list VastuConstraint) (placed : list Room) :
  generate_layout (p_w, p_d) reqs c = Ok placed ->
  exists h_top,
    h_top_of p_d (top_rooms_of reqs) (bottom_rooms_of reqs) = Ok h_top
    /\ placed
       = row_boxes p_w (total_w (bottom_rooms_of reqs)) 0 (p_d - h_top) 0
                   (bottom_rooms_of reqs)
         ++ row_boxes p_w (total_w (top_rooms_of reqs)) (p_d - h_top) p_d 0
                      (top_rooms_of reqs).
Proof.
  unfold generate_layout. intros H.
  destruct (h_top_of p_d (top_rooms_of reqs) (bottom_rooms_of reqs))
    as [h|e] eqn:Eh; [|discriminate].
  exists h. split; [reflexivity|]. cbn [bind] in H.
  destruct (place_row p_w (total_w (bottom_rooms_of reqs)) 0 (p_d - h)
                      (List.length (bottom_rooms_of reqs)) 0
                      (bottom_rooms_of reqs) 0 []) as [pb|e] eqn:Eb;
    [|discriminate].
  cbn [bind] in H. apply place_row_inv in Eb. apply place_row_inv in H.
  simpl in Eb. now subst.
Qed.

Lemma h_top_of_valid (p_d : Q) (top bottom : list Room) :
  Forall valid_room top -> Forall valid_room bottom ->
  exists h, h_top_of p_d top bottom = Ok h
            /\ (top = [] -> h == 0)
            /\ (bottom = [] -> top <> [] -> h == p_d)
            /\ (0 <= p_d -> 0 <= h /\ h <= p_d).
Proof.
  intros Ht Hb.
  destruct (avg_d_valid top Ht) as (a & Ea & Ha0 & Ha).
  destruct (avg_d_valid bottom Hb) as (b & Eb & Hb0 & Hb').
  unfold h_top_of. rewrite Ea, Eb. cbn [bind].
  destruct (Qeq_bool (a + b) 0) eqn:E.
  - apply Qeq_bool_iff in E.
    assert (Ha' : a == 0) by lra.
    rewrite pydiv_ok by lra. cbn [bind].
    exists (a / 1 * p_d). split; [reflexivity|].
    assert (Hz : a / 1 * p_d == 0) by (rewrite Ha'; field).
    repeat split; intros; try lra.
    exfalso. assert (0 < a) by auto. lra.
  - apply Qeq_bool_false_neq in E. rewrite pydiv_ok by exact E.
    cbn [bind]. exists (a / (a + b) * p_d). split; [reflexivity|].
    assert (Hab : 0 < a + b) by lra.
    split; [|split].
    + intros ->. simpl in Ea. injection Ea as <-. field. lra.
    + intros -> Hne. simpl in Eb. injection Eb as <-. field.
      specialize (Ha Hne). lra.
    + intros Hp.
      assert (H0 : 0 <= a / (a + b)) by (apply Qle_shift_div_l; lra).
      assert (H1 : a / (a + b) <= 1) by (apply Qle_shift_div_r; lra).
      split; nra.
Qed.

(** On valid rooms the planner never raises. *)
Lemma generate_layout_valid (p_w p_d : Q) (reqs : list Room)
      (c : list VastuConstraint) :
  Forall valid_room reqs ->
  exists placed, generate_layout (p_w, p_d) reqs c = Ok placed.
Proof.
  intros H. destruct (rows_Forall _ _ H) as [Hb Ht].
  destruct (h_top_of_valid p_d _ _ Ht Hb) as (h & Eh & _).
  unfold generate_layout. rewrite Eh. cbn [bind].
  assert (Hwb := total_w_pos _ Hb). assert (Hwt := total_w_pos _ Ht).
  rewrite (place_row_boxes p_w _ 0 (p_d - h) _ _) with (i := 0%nat)
    by (lra || reflexivity).
  cbn [bind].
  rewrite (place_row_boxes p_w _ (p_d - h) p_d _ _) with (i := 0%nat)
    by (lra || reflexivity).
  eexists. reflexivity.
Qed.

Lemma generate_layout_length (p_w p_d : Q) (reqs : list Room)
      (c : list VastuConstraint) (placed : list Room) :
  generate_layout (p_w, p_d) reqs c = Ok placed ->
  List.length placed = List.length reqs.
Proof.
  intros H. apply generate_layout_inv in H. destruct H as (h & _ & ->).
  rewrite length_app, !row_boxes_length. apply rows_length.
Qed.

(** ** The edges of a row *)

Section RowBoxes.
Variables p_w total y0 y1 : Q.

Local Abbreviation boxes := (row_boxes p_w total y0 y1).

Lemma row_boxes_cons2 (r1 r2 : Room) (rest : list Room) (cx : Q) :
  boxes cx (r1 :: r2 :: rest)
  = place r1 (box cx y0 (cx + rep_w r1 / total * p_w) y1)
    :: boxes (cx + rep_w r1 / total * p_w) (r2 :: rest).
Proof. reflexivity. Qed.

Lemma row_boxes_rep_w (rooms : list Room) :
  forall cx, map rep_w (boxes cx rooms) = map rep_w rooms.
Proof.
  induction rooms as [|r rest IH]; intros cx; [reflexivity|].
  destruct rest as [|r2 rest']; [reflexivity|].
  rewrite row_boxes_cons2. cbn [map]. now rewrite IH.
Qed.


Lemma row_boxes_first (rooms : list Room) (cx : Q) (r : Room) :
  nth_error (boxes cx rooms) 0 = Some r ->
  exists x1, current_poly r = Some (box cx y0 x1 y1).
Proof.
  destruct rooms as [|r1 [|r2 rest]]; simpl; intros H;
    [discriminate| |]; injection H as <-; eexists; reflexivity.
Qed.



Lemma row_boxes_chain (rooms : list Room) :
  forall cx i r r',
    nth_error (boxes cx rooms) i = Some r ->
    nth_error (boxes cx rooms) (S i) = Some r' ->
    exists x0 x1 x2,
      current_poly r = Some (box x0 y0 x1 y1)
      /\ current_poly r' = Some (box x1 y0 x2 y1).
Proof.
  induction rooms as [|r1 rest IH]; intros cx i r r'.
  - destruct i; discriminate.
  - destruct rest as [|r2 rest'].
    + simpl. destruct i as [|[|i]]; discriminate.
    + rewrite row_boxes_cons2. destruct i as [|i].
      * cbn [nth_error]. intros H H'. injection H as <-.
        destruct (row_boxes_first _ _ _ H') as [x2 E].
        do 3 eexists. split; [reflexivity|exact E].
      * cbn [nth_error]. apply IH.
Qed.
End RowBoxes.



Lemma scenario_rooms_valid : Forall valid_room scenario_rooms.
Proof.
  unfold scenario_rooms, valid_room.
  repeat constructor; reflexivity.
Qed.

(** ** The planner and the constraints *)

(** C10.  The placed rooms do not depend on the constraint list: for every
    plot size and room list, any two constraint lists give the same
    result, rooms, order, rectangles and centres included. *)
Theorem generate_layout_ignores_constraints (plot_size : Q * Q)
        (requirements : list Room) (c1 c2 : list VastuConstraint) :
  generate_layout plot_size requirements c1
  = generate_layout plot_size requirements c2.
Proof.
  destruct plot_size as [p_w p_d]. reflexivity.
Qed.

(** ** The planner and its inputs *)

(** C2, as stated, fails: on the empty room list the planner returns the
    empty list instead of raising, and with a zero width and a negative
    depth it still returns placed rooms. *)
Lemma planner_input_errors_counterexample :
  ~ aborts (generate_layout (12, 15) [] [])
  /\ ~ aborts (generate_layout (0, -15) scenario_rooms [])
  /\ exists placed,
       generate_layout (0, -15) scenario_rooms [] = Ok placed
       /\ List.length placed = 4%nat.
Proof.
  destruct (generate_layout_valid 0 (-15) scenario_rooms []
                                  scenario_rooms_valid) as [placed E].
  split; [|split].
  - intros [e H]. discriminate.
  - intros [e H]. rewrite E in H. discriminate.
  - exists placed. split; [exact E|].
    now rewrite (generate_layout_length _ _ _ _ _ E).
Qed.

(** C2, amended.  The planner has neither of the two errors and checks
    neither the room list nor the plot size.  For every plot size, positive
    or not: the empty room list gives the empty list of placed rooms and no
    error; and a run that returns gives one placed room per request, none
    rejected and none dropped. *)
Theorem generate_layout_validates_nothing (p_w p_d : Q)
        (c : list VastuConstraint) :
  generate_layout (p_w, p_d) [] c = Ok []
  /\ (forall reqs placed,
        generate_layout (p_w, p_d) reqs c = Ok placed ->
        List.length placed = List.length reqs).
Proof.
  split; [reflexivity|].
  intros reqs placed E. eapply generate_layout_length; eauto.
Qed.

Lemma generate_layout_validates_nothing_witness :
  generate_layout (0, -15) [] [] = Ok []
  /\ exists placed,
       generate_layout (0, -15) scenario_rooms [] = Ok placed
       /\ List.length placed = List.length scenario_rooms.
Proof.
  destruct (generate_layout_validates_nothing 0 (-15) []) as (H0 & H1).
  split; [exact H0|].
  destruct (generate_layout_valid 0 (-15) scenario_rooms []
                                  scenario_rooms_valid) as [placed E].
  exists placed. split; [exact E|]. exact (H1 _ _ E).
Defined.

(** ** The scenario of the specification *)

(** C6, as stated, fails: the south (bottom) row of the scenario is
    MasterBed and Kitchen, not Toilet and MasterBed, and the north (top)
    row is Toilet and Living, not Living and Kitchen. *)
Lemma scenario_rows_counterexample :
  map name (bottom_rooms_of scenario_rooms) = ["MasterBed"; "Kitchen"]%string
  /\ map name (top_rooms_of scenario_rooms) = ["Toilet"; "Living"]%string
  /\ ~ Permutation (map name (bottom_rooms_of scenario_rooms))
                   ["Toilet"; "MasterBed"]%string
  /\ ~ Permutation (map name (top_rooms_of scenario_rooms))
                   ["Living"; "Kitchen"]%string.
Proof.
  split; [reflexivity|]. split; [reflexivity|]. split; intros H.
  - assert (Hin : In "Kitchen"%string
                     (map name (bottom_rooms_of scenario_rooms)))
      by (vm_compute; tauto).
    apply (Permutation_in _ H) in Hin. simpl in Hin.
    destruct Hin as [E|[E|[]]]; discriminate.
  - assert (Hin : In "Toilet"%string (map name (top_rooms_of scenario_rooms)))
      by (vm_compute; tauto).
    apply (Permutation_in _ H) in Hin. simpl in Hin.
    destruct Hin as [E|[E|[]]]; discriminate.
Qed.

(** C6, amended.  On the plot 12 x 15 with Living, Kitchen, MasterBed and
    Toilet the planner puts MasterBed then Kitchen in the south row and
    Toilet then Living in the north row; the widths of each row total 12;
    the heights of the two rows total 15; the south row starts at y = 0 and
    the north row ends at y = 15; Toilet's right edge is Living's left edge
    and MasterBed's right edge is Kitchen's left edge. *)
Theorem scenario_layout :
  map name (bottom_rooms_of scenario_rooms) = ["MasterBed"; "Kitchen"]%string
  /\ map name (top_rooms_of scenario_rooms) = ["Toilet"; "Living"]%string
  /\ exists mb k t l,
       generate_layout scenario_plot scenario_rooms [] = Ok [mb; k; t; l]
       /\ map name [mb; k; t; l]
          = ["MasterBed"; "Kitchen"; "Toilet"; "Living"]%string
       /\ width_of mb + width_of k == 12
       /\ width_of t + width_of l == 12
       /\ height_of mb + height_of t == 15
       /\ height_of k == height_of mb /\ height_of l == height_of t
       /\ miny (rect_of mb) == 0 /\ miny (rect_of k) == 0
       /\ maxy (rect_of t) == 15 /\ maxy (rect_of l) == 15
       /\ maxy (rect_of mb) == miny (rect_of t)
       /\ maxx (rect_of t) == minx (rect_of l)
       /\ maxx (rect_of mb) == minx (rect_of k).
Proof.
  split; [reflexivity|split; [reflexivity|]].
  do 4 eexists. split; [vm_compute; reflexivity|].
  repeat split; vm_compute; reflexivity.
Qed.

(** ** The last-room snap *)



(** ** Rectangles *)

Lemma bounds_box (x0 y0 x1 y1 : Q) :
  x0 <= x1 -> y0 <= y1 ->
  minx (box x0 y0 x1 y1) == x0 /\ maxx (box x0 y0 x1 y1) == x1
  /\ miny (box x0 y0 x1 y1) == y0 /\ maxy (box x0 y0 x1 y1) == y1.
Proof.
  intros Hx Hy. unfold minx, maxx, miny, maxy, bounds, box.
  cbn [map fst snd fold_left Qmin_list Qmax_list].
  repeat split.
  - rewrite Q.min_id, (Q.min_r x1 x0), Q.min_id, (Q.min_l x0 x1) by assumption.
    reflexivity.
  - rewrite Q.max_id, (Q.max_l x1 x0), (Q.max_l x1 x0), Q.max_id by assumption.
    reflexivity.
  - rewrite (Q.min_l y0 y1), (Q.min_l y0 y1), !Q.min_id by assumption.
    reflexivity.
  - rewrite (Q.max_r y0 y1), Q.max_id, (Q.max_l y1 y0), (Q.max_l y1 y0)
      by assumption.
    reflexivity.
Qed.

Lemma rect_of_place (r : Room) (poly : Polygon) : rect_of (place r poly) = poly.
Proof. reflexivity. Qed.

(** ** The geometry of one row *)

Section RowGeometry.
Variables p_w total y0 y1 : Q.
Hypothesis Htotal : 0 < total.
Hypothesis Hpw : 0 <= p_w.
Hypothesis Hy : y0 <= y1.

Local Abbreviation row := (row_boxes p_w total y0 y1).
Local Abbreviation widths rooms := (sum (map rep_w rooms)).
Local Abbreviation positive rooms := (Forall (fun r => 0 < rep_w r) rooms).

Lemma share_nonneg (w : Q) : 0 <= w -> 0 <= w / total * p_w.
Proof.
  intros H. assert (0 <= w / total) by (apply Qle_shift_div_l; lra). nra.
Qed.

Lemma widths_nonneg (rooms : list Room) : positive rooms -> 0 <= widths rooms.
Proof.
  intros H. apply sum_nonneg, Forall_map.
  eapply Forall_impl; [|exact H]. intros; simpl in *; lra.
Qed.

Lemma widths_cons (r : Room) (rooms : list Room) (cx : Q) :
  cx + widths (r :: rooms) / total * p_w
  == cx + rep_w r / total * p_w + widths rooms / total * p_w.
Proof.
  cbn [map]. rewrite sum_cons. field. lra.
Qed.




End RowGeometry.

(** ** Full coverage *)



Lemma total_w_fills (rooms : list Room) (p_w : Q) :
  rooms <> [] -> Forall valid_room rooms ->
  0 + sum (map rep_w rooms) / total_w rooms * p_w == p_w.
Proof.
  intros Hne H. pose proof (total_w_pos _ H) as Hp.
  destruct rooms as [|r rooms]; [congruence|].
  unfold total_w in *. field. lra.
Qed.

Lemma valid_positive (rooms : list Room) :
  Forall valid_room rooms -> Forall (fun r => 0 < rep_w r) rooms.
Proof.
  intros H. eapply Forall_impl; [|exact H]. apply valid_rep_w.
Qed.


(** Outside the data model the statement has no counterpart: a request of
    depth zero that is alone on the plot goes to the top row, whose height
    is then zero, and the one placed rectangle has no area. *)
Remark zero_depth_room_is_flat :
  exists r,
    generate_layout (12, 15) [new_Room "Hall" (3, 0) (5, 0)] [] = Ok [r]
    /\ area (rect_of r) == 0 /\ ~ 12 * 15 == 0.
Proof.
  eexists. split; [vm_compute; reflexivity|]. split; [reflexivity|].
  discriminate.
Qed.


(** ** Canonical segments *)

Lemma round_half_even_thousandths (z : Z) :
  round_half_even ((z # 1000) * 1000) = z.
Proof.
  unfold round_half_even. cbv zeta.
  assert (Hf : Qfloor ((z # 1000) * 1000) = z).
  { unfold Qfloor, Qmult. cbn [Qnum Qden inject_Z].
    change (Z.pos (1000 * 1)) with 1000%Z. apply Z.div_mul. lia. }
  rewrite Hf.
  assert (Hlt : (z # 1000) * 1000 - inject_Z z < 1 # 2).
  { unfold Qlt, Qminus, Qplus, Qmult, Qopp, inject_Z. cbn [Qnum Qden]. lia. }
  assert (Hc : Qcompare ((z # 1000) * 1000 - inject_Z z) (1 # 2) = Lt)
    by (apply Qlt_alt; exact Hlt).
  now rewrite Hc.
Qed.

Lemma round3_idempotent (x : Q) : round3 (round3 x) = round3 x.
Proof.
  unfold round3 at 1 3. f_equal. unfold round3.
  apply round_half_even_thousandths.
Qed.

Lemma round3_eq (x y : Q) : round3 x == round3 y -> round3 x = round3 y.
Proof.
  unfold round3, Qeq. cbn [Qnum Qden]. intros H. f_equal. lia.
Qed.

Lemma round_point_idempotent (p : Point) :
  round_point (round_point p) = round_point p.
Proof.
  unfold round_point. cbn [fst snd]. now rewrite !round3_idempotent.
Qed.

Lemma point_ltb_asym (a b : Point) :
  point_ltb a b = true -> point_ltb b a = false.
Proof.
  unfold point_ltb.
  destruct (Qeq_bool (fst a) (fst b)) eqn:E1.
  - apply Qeq_bool_iff in E1.
    assert (E1' : Qeq_bool (fst b) (fst a) = true)
      by (apply Qeq_bool_iff; now symmetry).
    rewrite E1'. cbn [negb].
    destruct (Qeq_bool (snd a) (snd b)) eqn:E2.
    + discriminate.
    + cbn [negb]. intros H. apply Qltb_lt in H.
      destruct (Qeq_bool (snd b) (snd a)); cbn [negb]; [reflexivity|].
      apply Qltb_ge. lra.
  - cbn [negb]. intros H. apply Qltb_lt in H.
    destruct (Qeq_bool (fst b) (fst a)) eqn:E1'.
    + apply Qeq_bool_iff in E1'. lra.
    + cbn [negb]. apply Qltb_ge. lra.
Qed.

Lemma point_ltb_total (a b : Point) :
  point_ltb a b = false -> point_ltb b a = false ->
  fst a == fst b /\ snd a == snd b.
Proof.
  unfold point_ltb.
  destruct (Qeq_bool (fst a) (fst b)) eqn:E1.
  - apply Qeq_bool_iff in E1.
    assert (E1' : Qeq_bool (fst b) (fst a) = true)
      by (apply Qeq_bool_iff; now symmetry).
    rewrite E1'. cbn [negb].
    destruct (Qeq_bool (snd a) (snd b)) eqn:E2.
    + apply Qeq_bool_iff in E2. intros _ _. now split.
    + apply Qeq_bool_false_neq in E2. cbn [negb]. intros H.
      apply Qltb_ge in H.
      destruct (Qeq_bool (snd b) (snd a)) eqn:E2'.
      * apply Qeq_bool_iff in E2'. intros _. split; [assumption|lra].
      * cbn [negb]. intros H'. apply Qltb_ge in H'. split; [assumption|lra].
  - apply Qeq_bool_false_neq in E1. cbn [negb]. intros H. apply Qltb_ge in H.
    destruct (Qeq_bool (fst b) (fst a)) eqn:E1'.
    + apply Qeq_bool_iff in E1'. exfalso. apply E1. lra.
    + cbn [negb]. intros H'. apply Qltb_ge in H'. exfalso. apply E1. lra.
Qed.

(** Sorting two rounded points does not depend on the order they come in. *)
Lemma sorted2_direction (p q : Point) :
  sorted2 (round_point q) (round_point p)
  = sorted2 (round_point p) (round_point q).
Proof.
  unfold sorted2.
  destruct (point_ltb (round_point q) (round_point p)) eqn:E1;
    destruct (point_ltb (round_point p) (round_point q)) eqn:E2;
    try reflexivity.
  - apply point_ltb_asym in E1. congruence.
  - destruct (point_ltb_total _ _ E1 E2) as [Hx Hy].
    unfold round_point in *. cbn [fst snd] in *.
    apply round3_eq in Hx, Hy. now rewrite Hx, Hy.
Qed.

Lemma sorted2_stable (a b : Point) :
  sorted2 (fst (sorted2 a b)) (snd (sorted2 a b)) = sorted2 a b.
Proof.
  unfold sorted2 at 2 3 4. destruct (point_ltb b a) eqn:E; cbn [fst snd].
  - unfold sorted2. now rewrite (point_ltb_asym _ _ E).
  - unfold sorted2. now rewrite E.
Qed.

Lemma canonical_rounded (p1 p2 : Point) :
  round_point (fst (canonical p1 p2)) = fst (canonical p1 p2)
  /\ round_point (snd (canonical p1 p2)) = snd (canonical p1 p2).
Proof.
  unfold canonical, sorted2.
  destruct (point_ltb _ _); cbn [fst snd];
    split; apply round_point_idempotent.
Qed.

(** C9.  Canonicalisation (round every coordinate to three decimals, then
    sort the two end points) is idempotent and does not depend on the
    direction of the edge: the canonical segment of a canonical segment,
    taken in either end point order, is that segment again, and the two
    directions of an edge have the same canonical segment. *)
Theorem canonical_idempotent_and_direction_invariant (p1 p2 : Point) :
  canonical (fst (canonical p1 p2)) (snd (canonical p1 p2)) = canonical p1 p2
  /\ canonical (snd (canonical p1 p2)) (fst (canonical p1 p2))
     = canonical p1 p2
  /\ canonical p2 p1 = canonical p1 p2.
Proof.
  assert (Hid : canonical (fst (canonical p1 p2)) (snd (canonical p1 p2))
                = canonical p1 p2).
  { destruct (canonical_rounded p1 p2) as [Ha Hb].
    unfold canonical at 1. rewrite Ha, Hb. apply sorted2_stable. }
  split; [exact Hid|split].
  - rewrite <- Hid at 3. unfold canonical at 1 4. apply sorted2_direction.
  - unfold canonical. apply sorted2_direction.
Qed.

(** ** The length test of the door *)

Lemma dist2_nonneg (p1 p2 : Point) : 0 <= dist2 p1 p2.
Proof.
  unfold dist2. cbv zeta.
  set (dx := fst p2 - fst p1). set (dy := snd p2 - snd p1).
  change (dx ^ 2) with (dx * dx). change (dy ^ 2) with (dy * dy). nra.
Qed.

(** [sqrt_ltb] decides the comparison of the real square root. *)
Lemma sqrt_ltb_spec (s c : Q) :
  0 <= s -> (sqrt_ltb s c = true <-> (sqrt (Q2R s) < Q2R c)%R).
Proof.
  intros Hs. apply Qle_Rle in Hs. change (Q2R 0) with (0 * / 1)%R in Hs.
  assert (Hs' : (0 <= Q2R s)%R) by lra.
  unfold sqrt_ltb. rewrite andb_true_iff, !Qltb_lt. split.
  - intros [Hc Hlt]. apply Qlt_Rlt in Hc, Hlt.
    change (Q2R 0) with (0 * / 1)%R in Hc. rewrite Q2R_mult in Hlt.
    rewrite <- (sqrt_square (Q2R c)) by lra.
    apply sqrt_lt_1_alt. lra.
  - intros H. pose proof (sqrt_pos (Q2R s)) as Hp.
    pose proof (sqrt_sqrt (Q2R s) Hs') as Hsq.
    split; apply Rlt_Qlt.
    + change (Q2R 0) with (0 * / 1)%R. lra.
    + rewrite Q2R_mult. nra.
Qed.

Lemma Q2R_door_threshold : Q2R (0.9 + 0.2) = 1.1%R.
Proof.
  unfold Q2R. simpl. lra.
Qed.

(** A door is drawn exactly when the length is at least [0.9 + 0.2]. *)
Lemma add_door_swing_true (msp : list Entity) (p1 p2 : Point) :
  snd (add_door_swing msp p1 p2 0.9) = true <-> (1.1 <= length_R p1 p2)%R.
Proof.
  unfold add_door_swing, length_R.
  pose proof (sqrt_ltb_spec (dist2 p1 p2) (0.9 + 0.2) (dist2_nonneg p1 p2)) as H.
  rewrite Q2R_door_threshold in H.
  destruct (sqrt_ltb (dist2 p1 p2) (0.9 + 0.2)); cbn [snd]; split; intros H'.
  - discriminate.
  - assert (sqrt (Q2R (dist2 p1 p2)) < 1.1)%R by now apply H. lra.
  - apply Rnot_lt_le. intros C. apply H in C. discriminate.
  - reflexivity.
Qed.

Lemma add_door_swing_short (msp : list Entity) (p1 p2 : Point) :
  (length_R p1 p2 < 1.1)%R -> add_door_swing msp p1 p2 0.9 = (msp, false).
Proof.
  intros H. pose proof (add_door_swing_true msp p1 p2) as T.
  unfold add_door_swing in *.
  destruct (sqrt_ltb (dist2 p1 p2) (0.9 + 0.2)); [reflexivity|].
  cbn [snd] in T. assert (1.1 <= length_R p1 p2)%R by now apply T. lra.
Qed.

Lemma add_door_swing_long (msp : list Entity) (p1 p2 : Point) :
  (1.1 <= length_R p1 p2)%R ->
  add_door_swing msp p1 p2 0.9
  = (msp ++ [DoorLeaf p1 p2 0.9; DoorSwing p1 p2 0.9], true).
Proof.
  intros H. apply (add_door_swing_true msp) in H.
  unfold add_door_swing in *.
  destruct (sqrt_ltb (dist2 p1 p2) (0.9 + 0.2)); [discriminate|reflexivity].
Qed.

(** C7, as stated, fails: the segment from (0, 0) to (1.1, 0) has length
    exactly 1.1 and receives a door. *)
Lemma door_threshold_counterexample :
  length_R (0, 0) (1.1, 0) = 1.1%R
  /\ add_door_swing [] (0, 0) (1.1, 0) 0.9
     = ([DoorLeaf (0, 0) (1.1, 0) 0.9; DoorSwing (0, 0) (1.1, 0) 0.9], true).
Proof.
  split; [|reflexivity].
  unfold length_R.
  replace (Q2R (dist2 (0, 0) (1.1, 0))) with (1.1 * 1.1)%R
    by (unfold Q2R; simpl; lra).
  apply sqrt_square. lra.
Qed.

(** C7, amended.  With the door width 0.9 a door is placed on a segment
    exactly when its Euclidean length is at least 0.9 + 0.2 = 1.1.  On a
    segment shorter than 1.1 the call draws nothing and returns failure,
    and the loop over the room's segments goes on with the next segment of
    the room.  On an interior segment without a door whose length is at
    least 1.1 the door is drawn and the loop stops. *)
Theorem door_threshold (msp : list Entity) (p1 p2 : Point) :
  (snd (add_door_swing msp p1 p2 0.9) = true <-> (1.1 <= length_R p1 p2)%R)
  /\ ((length_R p1 p2 < 1.1)%R ->
      add_door_swing msp p1 p2 0.9 = (msp, false))
  /\ (forall drawn room_name rest st s_type,
        dict_get seg_eqb drawn (p1, p2) = Some s_type ->
        (length_R p1 p2 < 1.1)%R ->
        try_segments drawn room_name ((p1, p2) :: rest) st
        = try_segments drawn room_name rest st)
  /\ (forall drawn room_name rest st,
        dict_get seg_eqb drawn (p1, p2) = Some interior ->
        set_mem (placed_doors st) (p1, p2) = false ->
        (1.1 <= length_R p1 p2)%R ->
        try_segments drawn room_name ((p1, p2) :: rest) st
        = Ok (mkDoorState
                (set_add (placed_doors st) (p1, p2))
                (door_log st ++ [(room_name, (p1, p2))])
                (door_msp st
                          ++ [DoorLeaf p1 p2 0.9; DoorSwing p1 p2 0.9]))).
Proof.
  split; [apply add_door_swing_true|].
  split; [apply add_door_swing_short|].
  split.
  - intros drawn room_name rest st s_type Hget Hlen.
    cbn [try_segments]. unfold dict_item. rewrite Hget. cbn [bind fst snd].
    rewrite (add_door_swing_short _ _ _ Hlen).
    destruct st as [pd lg ms]. cbn [placed_doors door_log door_msp].
    destruct (seg_type_eqb s_type interior && negb (set_mem pd (p1, p2)));
      reflexivity.
  - intros drawn room_name rest st Hget Hmem Hlen.
    cbn [try_segments]. unfold dict_item. rewrite Hget. cbn [bind fst snd].
    rewrite Hmem. cbn [seg_type_eqb negb andb].
    now rewrite (add_door_swing_long _ _ _ Hlen).
Qed.

Lemma door_threshold_witness :
  Rlt (length_R (0, 0) (1, 0)) 1.1%R
  /\ add_door_swing [] (0, 0) (1, 0) 0.9 = ([], false).
Proof.
  assert (H : Rlt (length_R (0, 0) (1, 0)) 1.1%R).
  { unfold length_R.
    replace (Q2R (dist2 (0, 0) (1, 0))) with 1%R by (unfold Q2R; simpl; lra).
    rewrite sqrt_1. lra. }
  split; [exact H|].
  destruct (door_threshold [] (0, 0) (1, 0)) as (_ & Hshort & _).
  exact (Hshort H).
Defined.

(** ** The offset of exterior walls *)

(** The first branch of the chain wins for every segment that starts within
    0.01 of the west edge, whichever plot edge the segment lies on. *)
Lemma offset_dir_of_west_corner (plot_width plot_height : Q) (p1 : Point) :
  fst p1 <= 0.01 -> offset_dir_of plot_width plot_height p1 = (1, 0).
Proof.
  intros H. unfold offset_dir_of. apply Qle_bool_iff in H. now rewrite H.
Qed.

(** C5, on the code: for the single room that fills the plot 12 x 15, the
    south edge from (0, 0) to (12, 0) is exterior and is offset along +x,
    not +y: its inner line runs from (0.23, 0) to (12.23, 0), on the plot
    boundary itself and 0.23 beyond the east edge. *)
Theorem south_wall_offset_leaves_plot :
  exists placed plan,
    generate_layout (12, 15) hall_rooms [] = Ok placed
    /\ generate_ai_detailed_plan placed 12 15 "client" = Ok plan
    /\ dict_get seg_eqb (drawn_segments plan) ((0, 0), (12, 0)) = Some exterior
    /\ offset_dir_of 12 15 (0, 0) = (1, 0)
    /\ exists p q,
         In (Line p q "A-WALL") (door_msp (doors plan))
         /\ fst p == 0.23 /\ snd p == 0 /\ fst q == 12.23 /\ snd q == 0
         /\ ~ in_plot 12 15 q.
Proof.
  do 2 eexists. split; [vm_compute; reflexivity|].
  split; [vm_compute; reflexivity|].
  split; [vm_compute; reflexivity|].
  split; [reflexivity|].
  do 2 eexists.
  split; [vm_compute; do 10 right; left; reflexivity|].
  repeat split; try reflexivity.
  unfold in_plot. cbn [fst snd]. intros [[_ H] _].
  revert H. vm_compute. intros H. now apply H.
Qed.

(** ** Equality of points and segments *)

Lemma point_eqb_refl (a : Point) : point_eqb a a = true.
Proof.
  unfold point_eqb. rewrite !Qeq_bool_refl. reflexivity.
Qed.

Lemma Qeq_bool_comm (x y : Q) : Qeq_bool x y = Qeq_bool y x.
Proof.
  destruct (Qeq_bool x y) eqn:E, (Qeq_bool y x) eqn:E'; try reflexivity.
  - apply Qeq_bool_iff in E. apply Qeq_bool_false_neq in E'.
    exfalso. apply E'. now symmetry.
  - apply Qeq_bool_iff in E'. apply Qeq_bool_false_neq in E.
    exfalso. apply E. now symmetry.
Qed.

Lemma point_eqb_sym (a b : Point) : point_eqb a b = point_eqb b a.
Proof.
  unfold point_eqb. f_equal; apply Qeq_bool_comm.
Qed.

Lemma point_eqb_trans (a b c : Point) :
  point_eqb a b = true -> point_eqb b c = true -> point_eqb a c = true.
Proof.
  unfold point_eqb. rewrite !andb_true_iff, !Qeq_bool_iff.
  intros [H1 H2] [H3 H4]. split; etransitivity; eauto.
Qed.

Lemma seg_eqb_refl (s : Segment) : seg_eqb s s = true.
Proof.
  unfold seg_eqb. now rewrite !point_eqb_refl.
Qed.

Lemma seg_eqb_sym (s t : Segment) : seg_eqb s t = seg_eqb t s.
Proof.
  unfold seg_eqb. f_equal; apply point_eqb_sym.
Qed.

Lemma seg_eqb_trans (s t u : Segment) :
  seg_eqb s t = true -> seg_eqb t u = true -> seg_eqb s u = true.
Proof.
  unfold seg_eqb. rewrite !andb_true_iff.
  intros [H1 H2] [H3 H4]. split; eapply point_eqb_trans; eauto.
Qed.

(** ** Dictionaries *)

Section DictFacts.
Context {K V : Type}.
Variable eqb : K -> K -> bool.
Hypothesis eqb_refl : forall k, eqb k k = true.
Hypothesis eqb_sym : forall k k', eqb k k' = eqb k' k.
Hypothesis eqb_trans :
  forall a b c, eqb a b = true -> eqb b c = true -> eqb a c = true.

Lemma eqb_congr (a b c : K) : eqb a b = true -> eqb a c = eqb b c.
Proof.
  intros H. destruct (eqb b c) eqn:E.
  - eapply eqb_trans; eauto.
  - destruct (eqb a c) eqn:E'; [|reflexivity].
    rewrite eqb_sym in H. rewrite <- E. symmetry. eapply eqb_trans; eauto.
Qed.

Lemma dict_get_congr (d : list (K * V)) (k k' : K) :
  eqb k k' = true -> dict_get eqb d k = dict_get eqb d k'.
Proof.
  intros H. induction d as [|[k0 v0] d IH]; [reflexivity|].
  cbn [dict_get]. rewrite (eqb_sym k0 k), (eqb_sym k0 k'), (eqb_congr _ _ _ H).
  now rewrite IH.
Qed.

Lemma dict_get_set_same (d : list (K * V)) (k k' : K) (v : V) :
  eqb k k' = true -> dict_get eqb (dict_set eqb d k v) k' = Some v.
Proof.
  intros H. induction d as [|[k0 v0] d IH]; cbn [dict_set dict_get].
  - now rewrite H.
  - destruct (eqb k0 k) eqn:E; cbn [dict_get].
    + now rewrite (eqb_trans _ _ _ E H).
    + rewrite (eqb_sym k0 k'), <- (eqb_congr _ _ _ H), (eqb_sym k k0), E.
      exact IH.
Qed.

Lemma dict_get_set_other (d : list (K * V)) (k k' : K) (v : V) :
  eqb k k' = false -> dict_get eqb (dict_set eqb d k v) k' = dict_get eqb d k'.
Proof.
  intros H. induction d as [|[k0 v0] d IH]; cbn [dict_set dict_get].
  - now rewrite H.
  - destruct (eqb k0 k) eqn:E; cbn [dict_get].
    + now rewrite (eqb_congr _ _ _ E), H.
    + now rewrite IH.
Qed.

Lemma dict_set_In (d : list (K * V)) (k : K) (v : V) (k' : K) (v' : V) :
  In (k', v') (dict_set eqb d k v) -> In (k', v') d \/ v' = v.
Proof.
  induction d as [|[k0 v0] d IH]; cbn [dict_set].
  - intros [E|[]]. right. congruence.
  - destruct (eqb k0 k).
    + intros [E|Hin]; [right; congruence|left; now right].
    + intros [E|Hin]; [left; now left|].
      destruct (IH Hin); [left; now right|now right].
Qed.
End DictFacts.

(** ** Segment analysis *)

Section Analysis.
Variables plot_width plot_height : Q.

Local Abbreviation canon e := (canonical (fst e) (snd e)).
Local Abbreviation sget := (dict_get seg_eqb).
Local Abbreviation record := (record_edge plot_width plot_height).
Local Abbreviation class := (classification plot_width plot_height).

Lemma analyse_edges_fold (es : list (Point * Point)) :
  forall drawn segs,
    fold_left (analyse_edge plot_width plot_height) es (drawn, segs)
    = (fold_left record es drawn, segs ++ map (fun e => canon e) es).
Proof.
  induction es as [|[p1 p2] es IH]; intros drawn segs.
  - simpl. now rewrite app_nil_r.
  - cbn [fold_left analyse_edge map]. rewrite IH.
    now rewrite <- app_assoc.
Qed.

Lemma analyse_room_drawn (st : DrawnSegments * RoomSegments) (room : Room) :
  fst (analyse_room plot_width plot_height st room)
  = fold_left record (room_edges room) (fst st).
Proof.
  destruct st as [drawn rs]. unfold analyse_room, room_edges.
  destruct (current_poly room) as [points|]; [|reflexivity].
  now rewrite analyse_edges_fold.
Qed.

Lemma analysis_drawn_from (rooms : list Room) :
  forall st,
    fst (fold_left (analyse_room plot_width plot_height) rooms st)
    = fold_left record (contributions rooms) (fst st).
Proof.
  induction rooms as [|room rooms IH]; intros st; [reflexivity|].
  cbn [fold_left contributions flat_map]. rewrite IH, analyse_room_drawn.
  now rewrite fold_left_app.
Qed.

Lemma analysis_drawn (rooms : list Room) :
  fst (segment_analysis rooms plot_width plot_height)
  = fold_left record (contributions rooms) [].
Proof.
  unfold segment_analysis. now rewrite analysis_drawn_from.
Qed.

Lemma record_segment_get (drawn : DrawnSegments) (s seg : Segment)
      (ext : bool) :
  sget (record_segment drawn s ext) seg
  = if seg_eqb s seg
    then merge_type (sget drawn seg)
                    (Some (if ext then exterior else interior))
    else sget drawn seg.
Proof.
  unfold record_segment. destruct (seg_eqb s seg) eqn:E.
  - rewrite <- (dict_get_congr seg_eqb seg_eqb_sym seg_eqb_trans drawn _ _ E).
    destruct (sget drawn s) as [t|] eqn:G.
    + destruct ext.
      * rewrite (dict_get_set_same seg_eqb seg_eqb_sym seg_eqb_trans) by exact E.
        now destruct t.
      * rewrite (dict_get_congr seg_eqb seg_eqb_sym seg_eqb_trans drawn _ _ E)
          in G.
        rewrite G. now destruct t.
    + rewrite (dict_get_set_same seg_eqb seg_eqb_sym seg_eqb_trans) by exact E.
      now destruct ext.
  - destruct (sget drawn s) as [t|]; [destruct ext|];
      try reflexivity;
      now rewrite (dict_get_set_other seg_eqb seg_eqb_sym seg_eqb_trans).
Qed.

(** A segment recorded exterior stays exterior. *)
Lemma record_segment_sticky (drawn : DrawnSegments) (s seg : Segment)
      (ext : bool) :
  sget drawn seg = Some exterior ->
  sget (record_segment drawn s ext) seg = Some exterior.
Proof.
  intros H. rewrite record_segment_get, H. now destruct (seg_eqb s seg).
Qed.

Lemma fold_record_get (es : list (Point * Point)) (seg : Segment) :
  forall drawn,
    sget (fold_left record es drawn) seg
    = merge_type (sget drawn seg) (class es seg).
Proof.
  induction es as [|e es IH]; intros drawn.
  - cbn. now destruct (sget drawn seg) as [[|]|].
  - cbn [fold_left]. rewrite IH. unfold record_edge.
    rewrite record_segment_get. unfold classification, contributes.
    cbn [existsb].
    destruct (seg_eqb (canon e) seg); cbn [andb orb];
      destruct (is_ext plot_width plot_height (fst e) (snd e));
      cbn [andb orb];
      destruct (sget drawn seg) as [[|]|];
      repeat match goal with
             | |- context [existsb ?f es] => destruct (existsb f es)
             end;
      reflexivity.
Qed.

(** The final type of a segment is a function of the set of edges. *)
Lemma analysis_classification (rooms : list Room) (seg : Segment) :
  sget (fst (segment_analysis rooms plot_width plot_height)) seg
  = class (contributions rooms) seg.
Proof.
  rewrite analysis_drawn, fold_record_get. cbn.
  now destruct (class (contributions rooms) seg) as [[|]|].
Qed.

Lemma classification_perm (es es' : list (Point * Point)) (seg : Segment) :
  Permutation es es' -> class es seg = class es' seg.
Proof.
  intros P.
  assert (H : forall f, existsb f es = existsb f es').
  { intros f. apply eq_true_iff_eq. rewrite !existsb_exists.
    split; intros (x & Hin & Hx); exists x; split; try assumption.
    - eapply Permutation_in; eauto.
    - eapply Permutation_in; [apply Permutation_sym|]; eauto. }
  unfold classification. now rewrite !H.
Qed.

Lemma classification_exterior (es : list (Point * Point)) (seg : Segment) :
  class es seg = Some exterior <->
  exists e, In e es /\ contributes seg e = true
            /\ is_ext plot_width plot_height (fst e) (snd e) = true.
Proof.
  unfold classification.
  destruct (existsb (fun e => contributes seg e && _) es) eqn:E.
  - split; [intros _|reflexivity].
    apply existsb_exists in E. destruct E as (e & Hin & He).
    apply andb_true_iff in He. now exists e.
  - split.
    + destruct (existsb (contributes seg) es); discriminate.
    + intros (e & Hin & Hc & He).
      assert (existsb (fun e => contributes seg e
                && is_ext plot_width plot_height (fst e) (snd e)) es = true).
      { apply existsb_exists. exists e. now rewrite Hc, He. }
      congruence.
Qed.

Lemma classification_app_exterior (es es' : list (Point * Point))
      (seg : Segment) :
  class es seg = Some exterior -> class (es ++ es') seg = Some exterior.
Proof.
  rewrite !classification_exterior. intros (e & Hin & H).
  exists e. split; [apply in_or_app; now left|exact H].
Qed.
End Analysis.

Lemma contributions_app (l l' : list Room) :
  contributions (l ++ l') = contributions l ++ contributions l'.
Proof.
  unfold contributions. apply flat_map_app.
Qed.

(** C4.  After the segment analysis a canonical segment is exterior
    exactly when some room has an edge of that segment on the plot
    boundary; no update of the map turns an exterior segment into an
    interior one, so the type stays exterior whatever rooms come later; and
    the final type of every segment is the same for every permutation of
    the rooms. *)
Theorem exterior_sticky_order_independent (plot_width plot_height : Q)
        (rooms : list Room) :
  (forall seg,
      dict_get seg_eqb (fst (segment_analysis rooms plot_width plot_height)) seg
      = Some exterior
      <-> exists room e,
            In room rooms /\ In e (room_edges room)
            /\ contributes seg e = true
            /\ is_ext plot_width plot_height (fst e) (snd e) = true)
  /\ (forall drawn s ext seg,
         dict_get seg_eqb drawn seg = Some exterior ->
         dict_get seg_eqb (record_segment drawn s ext) seg = Some exterior)
  /\ (forall more seg,
         dict_get seg_eqb
                  (fst (segment_analysis rooms plot_width plot_height)) seg
         = Some exterior ->
         dict_get seg_eqb
                  (fst (segment_analysis (rooms ++ more)
                                         plot_width plot_height)) seg
         = Some exterior)
  /\ (forall rooms',
         Permutation rooms rooms' ->
         forall seg,
           dict_get seg_eqb
                    (fst (segment_analysis rooms' plot_width plot_height)) seg
           = dict_get seg_eqb
                      (fst (segment_analysis rooms plot_width plot_height))
                      seg).
Proof.
  split; [|split; [|split]].
  - intros seg. rewrite analysis_classification, classification_exterior.
    unfold contributions. split.
    + intros (e & Hin & H). apply in_flat_map in Hin.
      destruct Hin as (room & Hr & He). now exists room, e.
    + intros (room & e & Hr & He & H). exists e. split; [|exact H].
      apply in_flat_map. now exists room.
  - intros drawn s ext seg. apply record_segment_sticky.
  - intros more seg. rewrite !analysis_classification, contributions_app.
    apply classification_app_exterior.
  - intros rooms' P seg. rewrite !analysis_classification.
    apply classification_perm. unfold contributions.
    apply Permutation_flat_map, Permutation_sym, P.
Qed.

Lemma exterior_sticky_order_independent_witness :
  Permutation scenario_placed (rev scenario_placed)
  /\ dict_get seg_eqb (fst (segment_analysis scenario_placed 12 15))
              ((0, 0), (0, 7.742))
     = Some exterior
  /\ dict_get seg_eqb (fst (segment_analysis (rev scenario_placed) 12 15))
              ((0, 0), (0, 7.742))
     = dict_get seg_eqb (fst (segment_analysis scenario_placed 12 15))
                ((0, 0), (0, 7.742)).
Proof.
  split; [apply Permutation_rev|]. split; [vm_compute; reflexivity|].
  destruct (exterior_sticky_order_independent 12 15 scenario_placed)
    as (_ & _ & _ & H).
  apply H. apply Permutation_rev.
Defined.

(** ** The segments stored per room *)

Lemma dict_set_keys {V : Type} (d : list (string * V)) (k : string) (v : V) :
  map fst (dict_set String.eqb d k v)
  = if existsb (fun k' => String.eqb k' k) (map fst d)
    then map fst d else map fst d ++ [k].
Proof.
  induction d as [|[k0 v0] d IH]; [reflexivity|].
  cbn [dict_set map fst existsb]. destruct (String.eqb k0 k); cbn [orb].
  - reflexivity.
  - cbn [map fst]. rewrite IH. now destruct (existsb _ (map fst d)).
Qed.

Lemma dict_set_NoDup {V : Type} (d : list (string * V)) (k : string) (v : V) :
  NoDup (map fst d) -> NoDup (map fst (dict_set String.eqb d k v)).
Proof.
  intros H. rewrite dict_set_keys.
  destruct (existsb (fun k' => String.eqb k' k) (map fst d)) eqn:E;
    [exact H|].
  apply (NoDup_Add (a := k) (l := map fst d)).
  - rewrite <- (app_nil_r (map fst d)) at 1. apply Add_app.
  - split; [exact H|]. intros Hin.
    assert (existsb (fun k' => String.eqb k' k) (map fst d) = true).
    { apply existsb_exists. exists k. split; [exact Hin|apply String.eqb_refl]. }
    congruence.
Qed.

Section RoomSegmentsFacts.
Variables plot_width plot_height : Q.

Local Abbreviation canon e := (canonical (fst e) (snd e)).

(** Every stored segment is the canonical segment of an edge of [es]. *)
Local Abbreviation from_edges rs es :=
  (forall (n : string) (segs : list Segment) (seg : Segment),
      In (n, segs) rs -> In seg segs ->
      exists e : Point * Point, In e es /\ seg = canon e).

Lemma analyse_room_segments (st : DrawnSegments * RoomSegments) (room : Room) :
  snd (analyse_room plot_width plot_height st room)
  = match current_poly room with
    | None => snd st
    | Some points =>
        dict_set String.eqb (dict_set String.eqb (snd st) (name room) [])
                 (name room) (map (fun e => canon e) (edges points))
    end.
Proof.
  destruct st as [drawn rs]. unfold analyse_room.
  destruct (current_poly room) as [points|]; [|reflexivity].
  now rewrite analyse_edges_fold.
Qed.

Lemma analyse_room_invariant (st : DrawnSegments * RoomSegments) (room : Room)
      (es : list (Point * Point)) :
  NoDup (map fst (snd st)) -> from_edges (snd st) es ->
  NoDup (map fst (snd (analyse_room plot_width plot_height st room)))
  /\ from_edges (snd (analyse_room plot_width plot_height st room))
                (es ++ room_edges room).
Proof.
  intros Hnd Hfrom. rewrite analyse_room_segments. unfold room_edges.
  destruct (current_poly room) as [points|].
  - split; [now apply dict_set_NoDup, dict_set_NoDup|].
    intros n segs seg Hin Hseg.
    apply dict_set_In in Hin. destruct Hin as [Hin| ->].
    + apply dict_set_In in Hin. destruct Hin as [Hin| ->]; [|destruct Hseg].
      destruct (Hfrom _ _ _ Hin Hseg) as (e & He & ->).
      exists e. split; [apply in_or_app; now left|reflexivity].
    + apply in_map_iff in Hseg. destruct Hseg as (e & <- & He).
      exists e. split; [apply in_or_app; now right|reflexivity].
  - split; [exact Hnd|]. intros n segs seg Hin Hseg.
    destruct (Hfrom _ _ _ Hin Hseg) as (e & He & ->).
    exists e. split; [apply in_or_app; now left|reflexivity].
Qed.

Lemma analysis_invariant_from (rooms : list Room) :
  forall st es,
    NoDup (map fst (snd st)) -> from_edges (snd st) es ->
    NoDup (map fst (snd (fold_left (analyse_room plot_width plot_height)
                                   rooms st)))
    /\ from_edges (snd (fold_left (analyse_room plot_width plot_height)
                                  rooms st))
                  (es ++ contributions rooms).
Proof.
  induction rooms as [|room rooms IH]; intros st es Hnd Hfrom.
  - cbn [fold_left contributions flat_map]. rewrite app_nil_r. now split.
  - cbn [fold_left contributions flat_map].
    destruct (analyse_room_invariant st room es Hnd Hfrom) as [Hnd' Hfrom'].
    destruct (IH _ _ Hnd' Hfrom') as [H1 H2].
    split; [exact H1|]. intros n segs seg Hin Hseg.
    destruct (H2 _ _ _ Hin Hseg) as (e & He & ->).
    exists e. split; [rewrite app_assoc; exact He|reflexivity].
Qed.

(** The room names are distinct keys, and every segment stored under a
    room is a key of [drawn_segments]. *)
Lemma analysis_invariant (rooms : list Room) :
  NoDup (map fst (snd (segment_analysis rooms plot_width plot_height)))
  /\ forall n segs seg,
       In (n, segs) (snd (segment_analysis rooms plot_width plot_height)) ->
       In seg segs ->
       dict_get seg_eqb (fst (segment_analysis rooms plot_width plot_height))
                seg <> None.
Proof.
  destruct (analysis_invariant_from rooms ([], []) [])
    as [Hnd Hfrom]; [constructor|intros n segs seg []|].
  split; [exact Hnd|]. intros n segs seg Hin Hseg.
  destruct (Hfrom _ _ _ Hin Hseg) as (e & He & ->).
  rewrite analysis_classification. unfold classification.
  assert (Hc : existsb (contributes (canon e)) (contributions rooms) = true).
  { apply existsb_exists. exists e. split; [exact He|].
    unfold contributes. apply seg_eqb_refl. }
  rewrite Hc.
  match goal with
  | |- context [existsb ?f ?l] => destruct (existsb f l)
  end; discriminate.
Qed.
End RoomSegmentsFacts.

(** ** Walls carry no door *)

Lemma draw_wall_leaves (seg : Segment) (msp : list Entity) (p1 p2 : Point)
      (thickness : Q) (offset_dir : option (Q * Q)) :
  filter (is_leaf_on seg) (draw_wall_with_hatch msp p1 p2 thickness offset_dir)
  = filter (is_leaf_on seg) msp.
Proof.
  unfold draw_wall_with_hatch. destruct (sqrt_ltb _ _); [reflexivity|].
  destruct offset_dir as [[vx vy]|]; rewrite filter_app; cbn [filter is_leaf_on];
    apply app_nil_r.
Qed.

Lemma draw_walls_leaves (plot_width plot_height : Q) (seg : Segment)
      (drawn : DrawnSegments) :
  forall msp,
    filter (is_leaf_on seg) (draw_walls plot_width plot_height drawn msp)
    = filter (is_leaf_on seg) msp.
Proof.
  unfold draw_walls. induction drawn as [|[s t] drawn IH]; intros msp;
    [reflexivity|].
  cbn [fold_left]. rewrite IH. unfold draw_segment.
  destruct t; apply draw_wall_leaves.
Qed.

(** ** The door pass *)

Lemma insert_longest_perm (x : Segment) (l : list Segment) :
  Permutation (x :: l) (insert_longest x l).
Proof.
  induction l as [|y l IH]; cbn [insert_longest].
  - apply Permutation_refl.
  - destruct (Qle_bool _ _).
    + apply Permutation_refl.
    + eapply perm_trans; [apply perm_swap|]. now apply perm_skip.
Qed.

Lemma sort_longest_first_perm (l : list Segment) :
  Permutation l (sort_longest_first l).
Proof.
  induction l as [|x l IH]; cbn.
  - apply perm_nil.
  - eapply perm_trans; [apply perm_skip, IH|]. apply insert_longest_perm.
Qed.

Lemma set_mem_congr (s : list Segment) (x y : Segment) :
  seg_eqb x y = true -> set_mem s x = set_mem s y.
Proof.
  intros H. unfold set_mem. induction s as [|z s IH]; [reflexivity|].
  cbn [existsb]. rewrite IH. f_equal.
  apply (eqb_congr seg_eqb seg_eqb_sym seg_eqb_trans). exact H.
Qed.

Lemma set_mem_add (s : list Segment) (x y : Segment) :
  set_mem (set_add s x) y = set_mem s y || seg_eqb y x.
Proof.
  unfold set_add. destruct (set_mem s x) eqn:E.
  - destruct (seg_eqb y x) eqn:E'.
    + rewrite (set_mem_congr s y x E'), E. reflexivity.
    + now rewrite orb_false_r.
  - unfold set_mem. rewrite existsb_app. cbn [existsb].
    now rewrite orb_false_r.
Qed.

Lemma filter_length_zero {A : Type} (f : A -> bool) (l : list A) :
  (forall x, In x l -> f x = false) -> List.length (filter f l) = 0%nat.
Proof.
  intros H. induction l as [|x l IH]; [reflexivity|].
  cbn [filter]. rewrite (H x (or_introl eq_refl)).
  apply IH. intros y Hy. apply H. now right.
Qed.

Lemma NoDup_snoc {A : Type} (l : list A) (a : A) :
  NoDup l -> ~ In a l -> NoDup (l ++ [a]).
Proof.
  intros H Hn. apply (NoDup_Add (a := a) (l := l)).
  - rewrite <- (app_nil_r l) at 1. apply Add_app.
  - now split.
Qed.

Lemma NoDup_filter_fst {V : Type} (l : list (string * V)) (nm : string) :
  NoDup (map fst l) ->
  (List.length (filter (fun d => String.eqb (fst d) nm) l) <= 1)%nat.
Proof.
  induction l as [|[k v] l IH]; cbn [map fst filter]; intros H; [simpl; lia|].
  inversion H as [|? ? Hk Hl]; subst.
  destruct (String.eqb k nm) eqn:E.
  - apply String.eqb_eq in E. subst k. cbn [List.length].
    rewrite filter_length_zero; [lia|].
    intros [k' v'] Hin. cbn [fst]. apply String.eqb_neq. intros ->.
    apply Hk. apply in_map_iff. now exists (nm, v').
  - now apply IH.
Qed.

Section DoorPass.
Variable drawn : DrawnSegments.

Local Abbreviation sget := (dict_get seg_eqb drawn).
Local Abbreviation on seg := (fun d : string * Segment => seg_eqb (snd d) seg).

(** What holds of the doors placed so far. *)
Local Abbreviation door_inv st :=
  ((forall d, In d (door_log st) ->
      set_mem (placed_doors st) (snd d) = true
      /\ sget (snd d) = Some interior)
   /\ (forall seg, le (List.length (filter (on seg) (door_log st))) 1)
   /\ (forall seg, List.length (filter (is_leaf_on seg) (door_msp st))
                   = List.length (filter (on seg) (door_log st)))
   /\ NoDup (map fst (door_log st))).

Lemma door_inv_place (room_name : string) (seg : Segment) (st : DoorState) :
  door_inv st ->
  ~ In room_name (map fst (door_log st)) ->
  sget seg = Some interior ->
  set_mem (placed_doors st) seg = false ->
  door_inv (mkDoorState
              (set_add (placed_doors st) seg)
              (door_log st ++ [(room_name, seg)])
              (door_msp st ++ [DoorLeaf (fst seg) (snd seg) 0.9;
                               DoorSwing (fst seg) (snd seg) 0.9])).
Proof.
  intros (Hlog & Hcount & Hleaf & Hnd) Hname Hint Hmem.
  cbn [placed_doors door_log door_msp].
  assert (Hfresh : forall seg', seg_eqb seg seg' = true ->
                     List.length (filter (on seg') (door_log st)) = 0%nat).
  { intros seg' E. apply filter_length_zero. intros d Hd.
    destruct (seg_eqb (snd d) seg') eqn:E'; [|reflexivity].
    destruct (Hlog d Hd) as [Hm _].
    rewrite seg_eqb_sym in E'.
    rewrite (set_mem_congr _ _ _ (seg_eqb_trans _ _ _ E E')) in Hmem.
    congruence. }
  assert (Hsnoc : forall seg',
             List.length (filter (on seg') (door_log st ++ [(room_name, seg)]))
             = (List.length (filter (on seg') (door_log st))
                + (if seg_eqb seg seg' then 1 else 0))%nat).
  { intros seg'. rewrite filter_app, length_app. cbn [filter snd].
    now destruct (seg_eqb seg seg'). }
  repeat split.
  - apply in_app_or in H. rewrite set_mem_add.
    destruct H as [H|[<-|[]]].
    + destruct (Hlog d H) as [Hm _]. now rewrite Hm.
    + cbn [snd]. rewrite seg_eqb_refl. apply orb_true_r.
  - apply in_app_or in H. destruct H as [H|[<-|[]]].
    + now destruct (Hlog d H).
    + exact Hint.
  - intros seg'. rewrite Hsnoc. destruct (seg_eqb seg seg') eqn:E.
    + rewrite (Hfresh seg' E). lia.
    + specialize (Hcount seg'). lia.
  - intros seg'. rewrite Hsnoc, filter_app, length_app, Hleaf.
    cbn [filter is_leaf_on]. destruct seg as [p1 p2]. cbn [fst snd].
    now destruct (seg_eqb (p1, p2) seg').
  - rewrite map_app. cbn [map fst]. now apply NoDup_snoc.
Qed.

Lemma try_segments_spec (room_name : string) (segments : list Segment) :
  forall st,
    (forall seg, In seg segments -> sget seg <> None) ->
    door_inv st ->
    ~ In room_name (map fst (door_log st)) ->
    exists st',
      try_segments drawn room_name segments st = Ok st'
      /\ door_inv st'
      /\ forall nm, In nm (map fst (door_log st')) ->
                    nm = room_name \/ In nm (map fst (door_log st)).
Proof.
  induction segments as [|seg rest IH]; intros st Hknown Hinv Hname.
  - exists st. split; [reflexivity|]. split; [exact Hinv|]. intros nm H. now right.
  - assert (Hrest : forall s, In s rest -> sget s <> None)
      by (intros s Hs; apply Hknown; now right).
    cbn [try_segments]. unfold dict_item.
    destruct (sget seg) as [t|] eqn:G;
      [|exfalso; apply (Hknown seg (or_introl eq_refl)); exact G].
    cbn [bind].
    destruct (seg_type_eqb t interior && negb (set_mem (placed_doors st) seg))
      eqn:C; [|now apply IH].
    apply andb_true_iff in C. destruct C as [Ct Cm].
    apply negb_true_iff in Cm.
    assert (t = interior) by (destruct t; [discriminate|reflexivity]). subst t.
    unfold add_door_swing.
    destruct (sqrt_ltb (dist2 (fst seg) (snd seg)) (0.9 + 0.2)).
    + destruct st as [pd lg ms]. cbn [placed_doors door_log door_msp] in *.
      apply IH; assumption.
    + eexists. split; [reflexivity|]. split.
      * now apply door_inv_place.
      * cbn [door_log]. intros nm H. rewrite map_app in H.
        apply in_app_or in H. destruct H as [H|[<-|[]]]; [now right|now left].
Qed.

Lemma place_doors_spec (rsegs : RoomSegments) :
  forall st,
    NoDup (map fst rsegs) ->
    (forall n segs seg, In (n, segs) rsegs -> In seg segs -> sget seg <> None) ->
    door_inv st ->
    (forall nm, In nm (map fst (door_log st)) -> ~ In nm (map fst rsegs)) ->
    exists st', place_doors drawn rsegs st = Ok st' /\ door_inv st'.
Proof.
  induction rsegs as [|[n segs] rest IH]; intros st Hnd Hknown Hinv Hnames.
  - exists st. now split.
  - cbn [map fst] in Hnd. inversion Hnd as [|? ? Hn Hrest]; subst.
    destruct (try_segments_spec n (sort_longest_first segs) st)
      as (st1 & E1 & Hinv1 & Hnames1).
    + intros seg Hs. apply (Hknown n segs seg); [now left|].
      eapply Permutation_in; [apply Permutation_sym, sort_longest_first_perm|].
      exact Hs.
    + exact Hinv.
    + intros H. apply (Hnames n H). now left.
    + cbn [place_doors]. rewrite E1. cbn [bind]. apply IH.
      * exact Hrest.
      * intros n' segs' seg Hin. apply (Hknown n' segs' seg). now right.
      * exact Hinv1.
      * intros nm H Hin. destruct (Hnames1 nm H) as [->|H'].
        -- contradiction.
        -- apply (Hnames nm H'). now right.
Qed.
End DoorPass.

(** C3.  For every list of rooms and every plot size the segment
    analysis, the walls and the door pass end without an exception, and in
    the drawing they produce: no canonical segment carries more than one
    door leaf; a segment whose type is exterior carries none; each room has
    placed at most one door; the door leaves in the drawing are exactly
    the doors the rooms have placed; and every door is on a segment whose
    type is interior. *)
Theorem door_invariants (rooms : list Room) (plot_width plot_height : Q)
        (client_name : string) :
  exists plan,
    generate_ai_detailed_plan rooms plot_width plot_height client_name = Ok plan
    /\ (forall seg, (leaves_on plan seg <= 1)%nat)
    /\ (forall seg,
           dict_get seg_eqb (drawn_segments plan) seg = Some exterior ->
           leaves_on plan seg = 0%nat)
    /\ (forall room_name, (doors_of_room plan room_name <= 1)%nat)
    /\ (forall seg, leaves_on plan seg = doors_on plan seg)
    /\ (forall d, In d (door_log (doors plan)) ->
           dict_get seg_eqb (drawn_segments plan) (snd d) = Some interior).
Proof.
  unfold generate_ai_detailed_plan.
  destruct (analysis_invariant plot_width plot_height rooms) as [Hnd Hknown].
  destruct (segment_analysis rooms plot_width plot_height) as [drawn rsegs].
  cbn [fst snd] in Hnd, Hknown.
  destruct (place_doors_spec drawn rsegs
              (mkDoorState [] [] (draw_walls plot_width plot_height drawn [])))
    as (st & E & Hlog & Hcount & Hleaf & Hnames).
  - exact Hnd.
  - exact Hknown.
  - cbn [placed_doors door_log door_msp]. repeat split.
    + destruct H.
    + destruct H.
    + intros seg. simpl. lia.
    + intros seg. now rewrite draw_walls_leaves.
    + constructor.
  - intros nm [].
  - rewrite E. cbn [bind]. eexists. split; [reflexivity|].
    unfold leaves_on, doors_on, doors_of_room. cbn [doors drawn_segments].
    split; [|split; [|split; [|split]]].
    + intros seg. rewrite Hleaf. apply Hcount.
    + intros seg Hext. rewrite Hleaf. apply filter_length_zero.
      intros d Hd. destruct (seg_eqb (snd d) seg) eqn:Eq; [|reflexivity].
      destruct (Hlog d Hd) as [_ Hint].
      rewrite (dict_get_congr seg_eqb seg_eqb_sym seg_eqb_trans drawn _ _ Eq)
        in Hint.
      congruence.
    + intros room_name. now apply NoDup_filter_fst.
    + exact Hleaf.
    + intros d Hd. now destruct (Hlog d Hd).
Qed.

(** * Further properties of the code *)

(** ** When the planner raises *)

Lemma len_nonzero {A : Type} (x : A) (l : list A) : ~ len (x :: l) == 0.
Proof.
  pose proof (len_pos (x :: l) ltac:(discriminate)). lra.
Qed.

Lemma avg_d_total (rooms : list Room) : exists a, avg_d rooms = Ok a.
Proof.
  destruct rooms as [|r rooms]; [now exists 0|].
  unfold avg_d. rewrite pydiv_ok by apply len_nonzero. eexists. reflexivity.
Qed.

(** The height of the top row is computed without an exception. *)
Lemma h_top_of_total (p_d : Q) (top bottom : list Room) :
  exists h, h_top_of p_d top bottom = Ok h.
Proof.
  unfold h_top_of.
  destruct (avg_d_total top) as [a ->]. destruct (avg_d_total bottom) as [b ->].
  cbn [bind]. destruct (Qeq_bool (a + b) 0) eqn:E.
  - rewrite pydiv_ok by lra. eexists. reflexivity.
  - apply Qeq_bool_false_neq in E. rewrite pydiv_ok by exact E.
    eexists. reflexivity.
Qed.

Lemma sum_rep_w_zero (rooms : list Room) :
  Forall (fun r => rep_w r == 0) rooms -> sum (map rep_w rooms) == 0.
Proof.
  induction 1 as [|r rest Hr _ IH]; [reflexivity|].
  cbn [map]. rewrite sum_cons. lra.
Qed.

(** X1.  A row of rooms without width stops the planner: when the bottom
    row or the top row is not empty and every room in it has the
    representative width zero (a room whose minimum and maximum width are
    both 0, or cancel), the run ends in an exception, the division by the
    zero total of the row, whatever the plot and the other row are. *)
Theorem zero_width_row_raises (p_w p_d : Q) (reqs : list Room)
        (c : list VastuConstraint) (row : list Room) :
  row = bottom_rooms_of reqs \/ row = top_rooms_of reqs ->
  row <> [] ->
  Forall (fun r => rep_w r == 0) row ->
  aborts (generate_layout (p_w, p_d) reqs c).
Proof.
  intros Hrow Hne Hzero.
  assert (Htot : total_w row == 0).
  { destruct row as [|r rest]; [congruence|].
    unfold total_w. now apply sum_rep_w_zero. }
  unfold aborts, generate_layout.
  destruct (h_top_of_total p_d (top_rooms_of reqs) (bottom_rooms_of reqs))
    as [h ->].
  cbn [bind].
  destruct Hrow as [E|E]; rewrite <- E.
  - destruct row as [|r rest]; [congruence|].
    rewrite (place_row_zero_total _ _ _ _ _ _ _ _ _ _ Htot).
    eexists. reflexivity.
  - destruct (place_row p_w (total_w (bottom_rooms_of reqs)) 0 (p_d - h)
                        _ 0 (bottom_rooms_of reqs) 0 []) as [pb|e];
      cbn [bind]; [|eexists; reflexivity].
    destruct row as [|r rest]; [congruence|].
    rewrite (place_row_zero_total _ _ _ _ _ _ _ _ _ _ Htot).
    eexists. reflexivity.
Qed.

Lemma zero_width_row_raises_witness :
  aborts (generate_layout
            (12, 15)
            [new_Room "Living" (3.6, 4) (5.4, 6);
             new_Room "Store" (0, 2) (0, 3)] []).
Proof.
  apply (zero_width_row_raises
           12 15 _ [] [new_Room "Store" (0, 2) (0, 3)]).
  - left. vm_compute. reflexivity.
  - discriminate.
  - apply Forall_cons; [vm_compute; reflexivity|apply Forall_nil].
Defined.

(** ** What a placed room is *)

Lemma row_boxes_In (p_w total y0 y1 : Q) (rooms : list Room) :
  forall cx r,
    In r (row_boxes p_w total y0 y1 cx rooms) ->
    exists req x0 x1, In req rooms /\ r = place req (box x0 y0 x1 y1).
Proof.
  induction rooms as [|r1 rest IH]; intros cx r Hin; [destruct Hin|].
  destruct rest as [|r2 rest'].
  - destruct Hin as [<-|[]]. exists r1, cx, p_w. split; [now left|reflexivity].
  - rewrite row_boxes_cons2 in Hin. destruct Hin as [<-|Hin].
    + do 3 eexists. split; [now left|reflexivity].
    + destruct (IH _ _ Hin) as (req & x0 & x1 & Hreq & ->).
      exists req, x0, x1. split; [now right|reflexivity].
Qed.

Lemma row_boxes_request (p_w total y0 y1 : Q) (rooms : list Room) :
  forall cx,
    map request_of (row_boxes p_w total y0 y1 cx rooms) = map request_of rooms.
Proof.
  induction rooms as [|r rest IH]; intros cx; [reflexivity|].
  destruct rest as [|r2 rest']; [reflexivity|].
  rewrite row_boxes_cons2. cbn [map]. now rewrite IH.
Qed.

Lemma classify_rows (l : list Room) :
  fst (classify l) = filter is_top l
  /\ snd (classify l) = filter (fun r => negb (is_top r)) l.
Proof.
  induction l as [|r l [IH1 IH2]]; [now split|].
  cbn [classify filter]. destruct (classify l) as [t b]. cbn [fst snd] in *.
  destruct (is_top r); cbn [negb fst snd]; subst; now split.
Qed.

Lemma top_rooms_are_top (reqs : list Room) :
  Forall (fun r => is_top r = true) (top_rooms_of reqs).
Proof.
  unfold top_rooms_of.
  eapply Permutation_Forall; [apply sort_by_perm|].
  rewrite (proj1 (classify_rows reqs)). apply Forall_forall.
  intros r Hr. now apply filter_In in Hr.
Qed.

Lemma bottom_rooms_are_bottom (reqs : list Room) :
  Forall (fun r => is_top r = false) (bottom_rooms_of reqs).
Proof.
  unfold bottom_rooms_of.
  eapply Permutation_Forall; [apply sort_by_perm|].
  rewrite (proj2 (classify_rows reqs)). apply Forall_forall.
  intros r Hr. apply filter_In in Hr. now apply negb_true_iff.
Qed.

Lemma row_boxes_is_top (p_w total y0 y1 cx : Q) (rooms : list Room)
      (b : bool) :
  Forall (fun r => is_top r = b) rooms ->
  forall r, In r (row_boxes p_w total y0 y1 cx rooms) -> is_top r = b.
Proof.
  intros F r Hin.
  destruct (row_boxes_In _ _ _ _ _ _ _ Hin) as (req & x0 & x1 & Hreq & ->).
  rewrite Forall_forall in F. exact (F req Hreq).
Qed.

(** X2.  In every layout the planner returns there is one height
    [h_bottom] at which the two rows meet: a room whose name sends it to
    the bottom row has a rectangle from y = 0 to y = [h_bottom], and a room
    of the top row one from y = [h_bottom] to y = [p_d]. *)
Theorem rows_meet_at_one_height (p_w p_d : Q) (reqs : list Room)
        (c : list VastuConstraint) (placed : list Room) :
  generate_layout (p_w, p_d) reqs c = Ok placed ->
  exists h_bottom,
    forall r, In r placed ->
      exists x0 x1,
        current_poly r
        = Some (if is_top r then box x0 h_bottom x1 p_d
                else box x0 0 x1 h_bottom).
Proof.
  intros H. apply generate_layout_inv in H. destruct H as (h & _ & ->).
  exists (p_d - h). intros r Hin. apply in_app_or in Hin.
  destruct Hin as [Hin|Hin];
    destruct (row_boxes_In _ _ _ _ _ _ _ Hin) as (req & x0 & x1 & Hreq & ->);
    exists x0, x1.
  - pose proof (bottom_rooms_are_bottom reqs) as F.
    rewrite Forall_forall in F. specialize (F req Hreq).
    change (is_top (place req (box x0 0 x1 (p_d - h)))) with (is_top req).
    now rewrite F.
  - pose proof (top_rooms_are_top reqs) as F.
    rewrite Forall_forall in F. specialize (F req Hreq).
    change (is_top (place req (box x0 (p_d - h) x1 p_d))) with (is_top req).
    now rewrite F.
Qed.

Lemma rows_meet_at_one_height_witness :
  exists placed,
    generate_layout scenario_plot scenario_rooms [] = Ok placed
    /\ exists h_bottom,
         forall r, In r placed ->
           exists x0 x1,
             current_poly r
             = Some (if is_top r then box x0 h_bottom x1 15
                     else box x0 0 x1 h_bottom).
Proof.
  eexists. split; [vm_compute; reflexivity|].
  apply (rows_meet_at_one_height 12 15 scenario_rooms []).
  vm_compute. reflexivity.
Defined.

(** X3.  The planner places every requested room exactly once and leaves
    its name, its dimension ranges, its priority and its layer as they
    were: without their placements, the returned rooms are a permutation of
    the requests. *)
Theorem placed_rooms_are_the_requests (p_w p_d : Q) (reqs : list Room)
        (c : list VastuConstraint) (placed : list Room) :
  generate_layout (p_w, p_d) reqs c = Ok placed ->
  Permutation (map request_of placed) (map request_of reqs).
Proof.
  intros H. apply generate_layout_inv in H. destruct H as (h & _ & ->).
  rewrite map_app, !row_boxes_request, <- map_app.
  apply Permutation_map, Permutation_sym, rows_perm.
Qed.

Lemma placed_rooms_are_the_requests_witness :
  exists placed,
    generate_layout scenario_plot scenario_rooms [] = Ok placed
    /\ Permutation (map request_of placed) (map request_of scenario_rooms).
Proof.
  eexists. split; [vm_compute; reflexivity|].
  apply (placed_rooms_are_the_requests 12 15 scenario_rooms []).
  vm_compute. reflexivity.
Defined.

(** ** The order inside a row *)

Section SortBy.
Context {A : Type}.
Variable key : A -> nat.

Local Abbreviation key_le := (fun a b : A => (key a <= key b)%nat).

Lemma insert_by_In (x y : A) (l : list A) :
  In y (insert_by key x l) -> y = x \/ In y l.
Proof.
  intros H. apply (Permutation_in _ (Permutation_sym (insert_by_perm key x l)))
    in H.
  destruct H; [left; congruence|now right].
Qed.

Lemma insert_by_sorted (x : A) (l : list A) :
  StronglySorted key_le l -> StronglySorted key_le (insert_by key x l).
Proof.
  induction 1 as [|y l Hl IH Hy]; cbn [insert_by].
  - constructor; [constructor|constructor].
  - destruct (Nat.leb (key x) (key y)) eqn:E.
    + apply Nat.leb_le in E. constructor; [now constructor|].
      constructor; [exact E|].
      eapply Forall_impl; [|exact Hy]. intros a Ha. simpl in *. lia.
    + apply Nat.leb_gt in E. constructor; [exact IH|].
      apply Forall_forall. intros a Ha. apply insert_by_In in Ha.
      destruct Ha as [->|Ha]; [lia|].
      rewrite Forall_forall in Hy. now apply Hy.
Qed.

Lemma sort_by_sorted (l : list A) : StronglySorted key_le (sort_by key l).
Proof.
  induction l as [|x l IH]; cbn; [constructor|now apply insert_by_sorted].
Qed.

Lemma filter_insert_by (k : nat) (x : A) (l : list A) :
  filter (fun a => Nat.eqb (key a) k) (insert_by key x l)
  = filter (fun a => Nat.eqb (key a) k) (x :: l).
Proof.
  induction l as [|y l IH]; [reflexivity|].
  cbn [insert_by]. destruct (Nat.leb (key x) (key y)) eqn:E; [reflexivity|].
  apply Nat.leb_gt in E. cbn [filter] in *. rewrite IH.
  destruct (Nat.eqb (key x) k) eqn:Ex; [|reflexivity].
  apply Nat.eqb_eq in Ex.
  replace (Nat.eqb (key y) k) with false
    by (symmetry; apply Nat.eqb_neq; lia).
  reflexivity.
Qed.

(** The sort is stable: the elements of one key keep their order. *)
Lemma sort_by_stable (k : nat) (l : list A) :
  filter (fun a => Nat.eqb (key a) k) (sort_by key l)
  = filter (fun a => Nat.eqb (key a) k) l.
Proof.
  induction l as [|x l IH]; [reflexivity|].
  cbn [sort_by fold_right]. rewrite filter_insert_by.
  cbn [filter]. fold (sort_by key l). now rewrite IH.
Qed.
End SortBy.

Lemma filter_filter_andb {A : Type} (f g : A -> bool) (l : list A) :
  filter f (filter g l) = filter (fun a => f a && g a) l.
Proof.
  induction l as [|x l IH]; [reflexivity|].
  cbn [filter]. destruct (g x); cbn [filter]; rewrite IH;
    [now rewrite andb_true_r|now rewrite andb_false_r].
Qed.

(** X5.  Each row is in ascending order of the left-to-right key, and the
    rooms of one key stand in the order in which they were requested: the
    rooms of key [k] in a row are the requested rooms of that row and key,
    in request order. *)
Theorem rows_sorted_and_stable (reqs : list Room) :
  StronglySorted (fun a b => (sort_key a <= sort_key b)%nat)
                 (bottom_rooms_of reqs)
  /\ StronglySorted (fun a b => (sort_key a <= sort_key b)%nat)
                    (top_rooms_of reqs)
  /\ (forall k,
        filter (fun r => Nat.eqb (sort_key r) k) (bottom_rooms_of reqs)
        = filter (fun r => Nat.eqb (sort_key r) k && negb (is_top r)) reqs)
  /\ (forall k,
        filter (fun r => Nat.eqb (sort_key r) k) (top_rooms_of reqs)
        = filter (fun r => Nat.eqb (sort_key r) k && is_top r) reqs).
Proof.
  destruct (classify_rows reqs) as [Ht Hb].
  unfold bottom_rooms_of, top_rooms_of.
  split; [apply sort_by_sorted|]. split; [apply sort_by_sorted|].
  split; intros k; rewrite sort_by_stable.
  - rewrite Hb. apply filter_filter_andb.
  - rewrite Ht. apply filter_filter_andb.
Qed.

(** ** The size of a placed room *)

Section RowSizes.
Variables p_w total y0 y1 : Q.
Hypothesis Htotal : 0 < total.
Hypothesis Hpw : 0 <= p_w.
Hypothesis Hy : y0 <= y1.

Lemma row_sizes (rooms : list Room) :
  forall cx, Forall (fun r => 0 < rep_w r) rooms ->
    cx + sum (map rep_w rooms) / total * p_w == p_w ->
    forall r, In r (row_boxes p_w total y0 y1 cx rooms) ->
      width_of r == rep_w r / total * p_w /\ height_of r == y1 - y0.
Proof.
  induction rooms as [|r1 rest IH]; intros cx Hpos Hfill r Hin; [destruct Hin|].
  inversion Hpos as [|? ? Hr1 Hrest]; subst.
  rewrite (widths_cons p_w total Htotal) in Hfill.
  pose proof (share_nonneg p_w total Htotal Hpw (rep_w r1) ltac:(lra)) as Hs.
  pose proof (share_nonneg p_w total Htotal Hpw _ (widths_nonneg _ Hrest))
    as Hw.
  destruct rest as [|r2 rest'].
  - destruct Hin as [<-|[]]. unfold width_of, height_of.
    rewrite rect_of_place.
    assert (Hc : cx <= p_w) by lra.
    destruct (bounds_box cx y0 p_w y1 Hc Hy) as (E1 & E2 & E3 & E4).
    rewrite E1, E2, E3, E4.
    change (rep_w (place r1 (box cx y0 p_w y1))) with (rep_w r1).
    assert (Hz : sum (map rep_w []) / total * p_w == 0)
      by (unfold sum; simpl; field; lra).
    split; lra.
  - rewrite row_boxes_cons2 in Hin. destruct Hin as [<-|Hin].
    + unfold width_of, height_of. rewrite rect_of_place.
      assert (Hc : cx <= cx + rep_w r1 / total * p_w) by lra.
      destruct (bounds_box cx y0 _ y1 Hc Hy) as (E1 & E2 & E3 & E4).
      rewrite E1, E2, E3, E4.
      change (rep_w (place r1 (box cx y0 (cx + rep_w r1 / total * p_w) y1)))
        with (rep_w r1).
      split; lra.
    + exact (IH _ Hrest Hfill r Hin).
Qed.
End RowSizes.

(** ** Rooms are proper rectangles *)

Section RowProper.
Variables p_w total y0 y1 : Q.
Hypothesis Htotal : 0 < total.
Hypothesis Hpw : 0 < p_w.


End RowProper.





(** X6.  For a plot of positive size and rooms with positive dimensions,
    every placed room has exactly its proportional share of the plot: its
    width is [rep_w / total_w * p_w] with the total of its own row (the snap
    of the last room changes nothing), and its height is the share of the
    plot depth that the average representative depth of its row has in the
    sum of the two averages. *)
Theorem placed_rooms_have_proportional_size (p_w p_d : Q) (reqs : list Room)
        (c : list VastuConstraint) (placed : list Room) :
  0 < p_w -> 0 < p_d -> Forall valid_room reqs ->
  generate_layout (p_w, p_d) reqs c = Ok placed ->
  exists a_top a_bottom,
    avg_d (top_rooms_of reqs) = Ok a_top
    /\ avg_d (bottom_rooms_of reqs) = Ok a_bottom
    /\ forall r, In r placed ->
         width_of r == rep_w r / total_w (row_of reqs r) * p_w
         /\ height_of r
            == (if is_top r then a_top else a_bottom)
               / (a_top + a_bottom) * p_d.
Proof.
  intros Hpw Hpd Hvalid E.
  apply generate_layout_inv in E. destruct E as (h & Eh & ->).
  destruct (rows_Forall _ _ Hvalid) as [Hb Ht].
  destruct (avg_d_valid _ Ht) as (a & Ea & Ha0 & Ha).
  destruct (avg_d_valid _ Hb) as (b & Eb & Hb0 & Hb').
  destruct (h_top_of_valid p_d _ _ Ht Hb) as (h' & Eh' & _ & _ & Hrange).
  rewrite Eh in Eh'. injection Eh' as <-.
  destruct (Hrange ltac:(lra)) as [Hh0 Hh1].
  exists a, b. split; [exact Ea|]. split; [exact Eb|].
  pose proof (total_w_pos _ Hb) as HwB. pose proof (total_w_pos _ Ht) as HwT.
  pose proof (valid_positive _ Hb) as HpB.
  pose proof (valid_positive _ Ht) as HpT.
  intros r Hin.
  assert (Hab : 0 < a + b).
  { apply in_app_or in Hin. destruct Hin as [Hin|Hin];
      apply row_boxes_In in Hin; destruct Hin as (req & _ & _ & Hreq & _).
    - assert (0 < b) by (apply Hb'; intros X; rewrite X in Hreq; destruct Hreq).
      lra.
    - assert (0 < a) by (apply Ha; intros X; rewrite X in Hreq; destruct Hreq).
      lra. }
  assert (Hh : h == a / (a + b) * p_d).
  { unfold h_top_of in Eh. rewrite Ea, Eb in Eh. cbn [bind] in Eh.
    destruct (Qeq_bool (a + b) 0) eqn:Q0;
      [apply Qeq_bool_iff in Q0; lra|].
    rewrite pydiv_ok in Eh by lra. cbn [bind] in Eh. injection Eh as <-.
    reflexivity. }
  apply in_app_or in Hin. destruct Hin as [Hin|Hin].
  - pose proof Hin as Hin'.
    apply row_boxes_In in Hin'. destruct Hin' as (req & x0 & x1 & Hreq & Er).
    assert (Hne : bottom_rooms_of reqs <> [])
      by (intros X; rewrite X in Hreq; destruct Hreq).
    pose proof (bottom_rooms_are_bottom reqs) as F.
    rewrite Forall_forall in F. specialize (F req Hreq).
    assert (Ftop : is_top r = false) by (rewrite Er; exact F).
    unfold row_of. rewrite Ftop.
    destruct (row_sizes p_w _ 0 (p_d - h) HwB ltac:(lra) ltac:(lra) _ 0 HpB
                        (total_w_fills _ p_w Hne Hb) r Hin) as [W H].
    split; [exact W|]. rewrite H, Hh. field. lra.
  - pose proof Hin as Hin'.
    apply row_boxes_In in Hin'. destruct Hin' as (req & x0 & x1 & Hreq & Er).
    assert (Hne : top_rooms_of reqs <> [])
      by (intros X; rewrite X in Hreq; destruct Hreq).
    pose proof (top_rooms_are_top reqs) as F.
    rewrite Forall_forall in F. specialize (F req Hreq).
    assert (Ftop : is_top r = true) by (rewrite Er; exact F).
    unfold row_of. rewrite Ftop.
    destruct (row_sizes p_w _ (p_d - h) p_d HwT ltac:(lra) ltac:(lra) _ 0 HpT
                        (total_w_fills _ p_w Hne Ht) r Hin) as [W H].
    split; [exact W|]. rewrite H, Hh. field. lra.
Qed.

Lemma placed_rooms_have_proportional_size_witness :
  exists placed a_top a_bottom,
    generate_layout (12, 15) scenario_rooms [] = Ok placed
    /\ avg_d (top_rooms_of scenario_rooms) = Ok a_top
    /\ avg_d (bottom_rooms_of scenario_rooms) = Ok a_bottom
    /\ forall r, In r placed ->
         width_of r == rep_w r / total_w (row_of scenario_rooms r) * 12
         /\ height_of r
            == (if is_top r then a_top else a_bottom)
               / (a_top + a_bottom) * 15.
Proof.
  destruct (generate_layout_valid 12 15 scenario_rooms [] scenario_rooms_valid)
    as [placed E].
  destruct (placed_rooms_have_proportional_size
              12 15 scenario_rooms [] placed
              ltac:(reflexivity) ltac:(reflexivity) scenario_rooms_valid E)
    as (a & b & H).
  exists placed, a, b. split; [exact E|exact H].
Defined.

(** ** The nine zones *)

Lemma third_of (x : Q) : 3 * (x / 3) == x.
Proof. field. Qed.

(** X7.  On a plot of positive size each of the nine zone centres lies
    strictly inside the plot, and the compass letters of a zone agree with
    its place: a zone with N in its name lies north of the middle of the
    plot, one with S south of it, one with E east and one with W west. *)
Theorem quadrant_centers_inside_plot (plot_width plot_depth : Q)
        (zone : string) (c : Point) :
  0 < plot_width -> 0 < plot_depth ->
  In (zone, c) (get_quadrant_centers plot_width plot_depth) ->
  (0 < fst c /\ fst c < plot_width /\ 0 < snd c /\ snd c < plot_depth)
  /\ (contains "N" zone = true -> plot_depth / 2 < snd c)
  /\ (contains "S" zone = true -> snd c < plot_depth / 2)
  /\ (contains "E" zone = true -> plot_width / 2 < fst c)
  /\ (contains "W" zone = true -> fst c < plot_width / 2).
Proof.
  intros Hw Hd Hin. unfold get_quadrant_centers in Hin. cbv zeta in Hin.
  pose proof (third_of plot_width) as Tw.
  pose proof (third_of plot_depth) as Td.
  assert (Hw2 : 2 * (plot_width / 2) == plot_width) by field.
  assert (Hd2 : 2 * (plot_depth / 2) == plot_depth) by field.
  set (w_step := plot_width / 3) in *. set (d_step := plot_depth / 3) in *.
  set (hw := plot_width / 2) in *. set (hd := plot_depth / 2) in *.
  cbn [In] in Hin.
  repeat (destruct Hin as [Hin|Hin];
          [injection Hin as <- <-; cbn [fst snd];
           repeat split; try (intros X; vm_compute in X; discriminate X);
           try (intros _); lra|]).
  destruct Hin.
Qed.

Lemma quadrant_centers_inside_plot_witness :
  (0 < 12 / 3 * 2.5 /\ 12 / 3 * 2.5 < 12
   /\ 0 < 15 / 3 * 2.5 /\ 15 / 3 * 2.5 < 15)
  /\ (contains "N" "NE" = true -> 15 / 2 < 15 / 3 * 2.5)
  /\ (contains "S" "NE" = true -> 15 / 3 * 2.5 < 15 / 2)
  /\ (contains "E" "NE" = true -> 12 / 2 < 12 / 3 * 2.5)
  /\ (contains "W" "NE" = true -> 12 / 3 * 2.5 < 12 / 2).
Proof.
  apply (quadrant_centers_inside_plot
           12 15 "NE" (12 / 3 * 2.5, 15 / 3 * 2.5)).
  - reflexivity.
  - reflexivity.
  - unfold get_quadrant_centers. cbv zeta. do 8 right. left. reflexivity.
Defined.

(** X8.  The nine zone centres are symmetric about the middle of the plot:
    a zone and the zone opposite to it (SW and NE, S and N, SE and NW, W
    and E; the centre zone C is its own opposite) have centres whose
    coordinates add up to the plot width and the plot depth. *)
Theorem quadrant_centers_symmetric (plot_width plot_depth : Q)
        (zone : string) (c : Point) :
  dict_get String.eqb (get_quadrant_centers plot_width plot_depth) zone
  = Some c ->
  exists c',
    dict_get String.eqb (get_quadrant_centers plot_width plot_depth)
             (opposite zone) = Some c'
    /\ fst c + fst c' == plot_width /\ snd c + snd c' == plot_depth.
Proof.
  unfold get_quadrant_centers. cbv zeta. cbn [dict_get].
  pose proof (third_of plot_width) as Tw.
  pose proof (third_of plot_depth) as Td.
  set (w_step := plot_width / 3) in *. set (d_step := plot_depth / 3) in *.
  repeat match goal with
         | |- context [String.eqb ?k zone] =>
             let E := fresh "E" in
             destruct (String.eqb k zone) eqn:E;
             [apply String.eqb_eq in E; subst zone; intros H;
              injection H as <-; eexists;
              split; [reflexivity|cbn [fst snd]; split; lra]|]
         end.
  intros H. discriminate H.
Qed.

Lemma quadrant_centers_symmetric_witness :
  exists c',
    dict_get String.eqb (get_quadrant_centers 12 15) (opposite "SE")
    = Some c'
    /\ fst (12 / 3 * 2.5, 15 / 3 * 0.5) + fst c' == 12
    /\ snd (12 / 3 * 2.5, 15 / 3 * 0.5) + snd c' == 15.
Proof.
  apply (quadrant_centers_symmetric 12 15 "SE"). reflexivity.
Defined.

(** ** The rooms of the app *)

Lemma room_of_config_valid (r : RoomConfig) :
  0 < cfg_w r -> 0 < cfg_d r ->
  valid_room (room_of_config r)
  /\ rep_w (room_of_config r) == cfg_w r
  /\ rep_d (room_of_config r) == cfg_d r.
Proof.
  intros Hw Hd. unfold valid_room, rep_w, rep_d, room_of_config, new_Room.
  cbn [min_w min_d max_w max_d fst snd].
  repeat split; try nra; field.
Qed.

(** X9.  A room the app builds from a configured width and depth, both
    positive, asks for the range from 0.8 to 1.2 times that size, so its
    representative width and depth are the configured ones; on a list of
    such rooms the planner raises no exception, whatever the plot, and
    returns one placed room per configured room. *)
Theorem app_rooms_are_planned (room_list : list RoomConfig) (p_w p_d : Q)
        (c : list VastuConstraint) :
  Forall (fun r => 0 < cfg_w r /\ 0 < cfg_d r) room_list ->
  Forall (fun r => rep_w (room_of_config r) == cfg_w r
                   /\ rep_d (room_of_config r) == cfg_d r) room_list
  /\ exists placed,
       generate_layout (p_w, p_d) (rooms_req room_list) c = Ok placed
       /\ List.length placed = List.length room_list.
Proof.
  intros H. split.
  - eapply Forall_impl; [|exact H]. intros r [Hw Hd].
    now destruct (room_of_config_valid r Hw Hd) as (_ & E1 & E2).
  - assert (Hv : Forall valid_room (rooms_req room_list)).
    { unfold rooms_req. apply Forall_map.
      eapply Forall_impl; [|exact H]. intros r [Hw Hd].
      now destruct (room_of_config_valid r Hw Hd). }
    destruct (generate_layout_valid p_w p_d _ c Hv) as [placed E].
    exists placed. split; [exact E|].
    rewrite (generate_layout_length _ _ _ _ _ E). unfold rooms_req.
    apply length_map.
Qed.

Lemma app_rooms_are_planned_witness :
  Forall (fun r => rep_w (room_of_config r) == cfg_w r
                   /\ rep_d (room_of_config r) == cfg_d r)
         [mkRoomConfig "Living" 4.5 5.0; mkRoomConfig "Kitchen" 3.0 3.5]
  /\ exists placed,
       generate_layout
         (12, 15)
         (rooms_req [mkRoomConfig "Living" 4.5 5.0;
                     mkRoomConfig "Kitchen" 3.0 3.5]) []
       = Ok placed
       /\ List.length placed = 2%nat.
Proof.
  apply (app_rooms_are_planned
           [mkRoomConfig "Living" 4.5 5.0; mkRoomConfig "Kitchen" 3.0 3.5]
           12 15 []).
  repeat constructor.
Defined.

(** ** The extractor without a language model *)

(** X10.  Without a language model [extract_constraints] returns the room
    name it was given, no forbidden zone, and a list of allowed zones
    without repetition that holds only SE, NE, SW, NW, N and W (never S, E
    or C); each of them is a zone of [get_quadrant_centers]. *)
Theorem extract_constraints_zones (room_name context_text : string) :
  rule_room (extract_constraints room_name context_text) = room_name
  /\ rule_forbidden (extract_constraints room_name context_text) = []
  /\ NoDup (allowed_quadrants (extract_constraints room_name context_text))
  /\ (forall q,
         In q (allowed_quadrants (extract_constraints room_name context_text))
         -> In q ["SE"; "NE"; "SW"; "NW"; "N"; "W"]%string)
  /\ (forall q plot_width plot_depth,
         In q (allowed_quadrants (extract_constraints room_name context_text))
         -> dict_get String.eqb
                     (get_quadrant_centers plot_width plot_depth) q
            <> None).
Proof.
  unfold extract_constraints. cbv zeta.
  cbn [rule_room rule_forbidden allowed_quadrants].
  split; [reflexivity|]. split; [reflexivity|].
  destruct (contains "south east" _ || contains "southeast" _);
    destruct (contains "north east" _ || contains "northeast" _);
    destruct (contains "south west" _ || contains "southwest" _);
    destruct (contains "north west" _ || contains "northwest" _);
    cbn [app];
    try (destruct (contains "kitchen" _);
         [|destruct (contains "bedroom" _);
           [|destruct (contains "living" _);
             [|destruct (contains "toilet" _)]]]);
    (split; [repeat constructor; cbn [In]; intuition discriminate|]);
    (split;
     [intros q Hq; cbn [In] in *; intuition (subst; auto)
     |intros q w d Hq; cbn [In] in Hq;
      repeat (destruct Hq as [<-|Hq]; [discriminate|]); destruct Hq]).
Qed.

(** X11.  Without a language model the context comes first: when the
    context names one of the four diagonal directions, the allowed zones
    are those of the context alone, whatever the room is called; when it
    names none, they are the zones the room name alone gives. *)
Theorem extract_constraints_context_first (room_name context_text : string) :
  (allowed_quadrants (extract_constraints "" context_text) <> [] ->
   allowed_quadrants (extract_constraints room_name context_text)
   = allowed_quadrants (extract_constraints "" context_text))
  /\ (allowed_quadrants (extract_constraints "" context_text) = [] ->
      allowed_quadrants (extract_constraints room_name context_text)
      = allowed_quadrants (extract_constraints room_name "")).
Proof.
  unfold extract_constraints. cbv zeta. cbn [allowed_quadrants].
  change (lower "") with ""%string.
  change (contains "kitchen" "") with false.
  change (contains "bedroom" "") with false.
  change (contains "living" "") with false.
  change (contains "toilet" "") with false.
  change (contains "south east" "" || contains "southeast" "") with false.
  change (contains "north east" "" || contains "northeast" "") with false.
  change (contains "south west" "" || contains "southwest" "") with false.
  change (contains "north west" "" || contains "northwest" "") with false.
  destruct (contains "south east" _ || contains "southeast" _);
    destruct (contains "north east" _ || contains "northeast" _);
    destruct (contains "south west" _ || contains "southwest" _);
    destruct (contains "north west" _ || contains "northwest" _);
    cbn [app]; split; intros H; try reflexivity; try discriminate H;
    exfalso; now apply H.
Qed.

Lemma extract_constraints_context_first_witness :
  allowed_quadrants (extract_constraints "Kitchen" "Keep it in the North East.")
  = allowed_quadrants (extract_constraints "" "Keep it in the North East.")
  /\ allowed_quadrants (extract_constraints "Kitchen" "No direction given.")
     = allowed_quadrants (extract_constraints "Kitchen" "").
Proof.
  split.
  - apply (extract_constraints_context_first
             "Kitchen" "Keep it in the North East.").
    vm_compute. discriminate.
  - apply (extract_constraints_context_first "Kitchen" "No direction given.").
    reflexivity.
Defined.

(** ** The wall lines of the rooms *)

Lemma walls_loop_some (rooms : list Room) :
  forall lines,
    Forall (fun r => current_poly r <> None) rooms ->
    walls_loop rooms lines = Some (lines ++ contributions rooms).
Proof.
  induction rooms as [|r rest IH]; intros lines H.
  - cbn. now rewrite app_nil_r.
  - inversion H as [|? ? Hr Hrest]; subst. cbn [walls_loop].
    unfold contributions. cbn [flat_map]. unfold room_edges at 1.
    destruct (current_poly r) as [points|]; [|congruence].
    rewrite (IH _ Hrest). unfold contributions. now rewrite app_assoc.
Qed.

Lemma walls_loop_none (rooms : list Room) :
  forall lines,
    walls_loop rooms lines = None <->
    exists r, In r rooms /\ current_poly r = None.
Proof.
  induction rooms as [|r rest IH]; intros lines.
  - cbn. split; [discriminate|intros (r & [] & _)].
  - cbn [walls_loop]. destruct (current_poly r) as [points|] eqn:E.
    + rewrite IH. split.
      * intros (r' & Hin & H). exists r'. split; [now right|exact H].
      * intros (r' & [<-|Hin] & H); [congruence|]. now exists r'.
    + split; [intros _|reflexivity]. exists r. split; [now left|exact E].
Qed.

(** X12.  [get_walls_from_rooms] fails exactly when one of the rooms has
    no polygon; on rooms that all have one it returns, room by room and
    in order, the edges of the polygons, which are the very edges the
    segment analysis of the drafting engine walks. *)
Theorem get_walls_from_rooms_spec (rooms : list Room) :
  (get_walls_from_rooms rooms = None
   <-> exists r, In r rooms /\ current_poly r = None)
  /\ (forall lines,
         get_walls_from_rooms rooms = Some lines ->
         lines = contributions rooms).
Proof.
  unfold get_walls_from_rooms. split; [apply walls_loop_none|].
  intros lines H.
  assert (F : Forall (fun r => current_poly r <> None) rooms).
  { apply Forall_forall. intros r Hin E.
    assert (N : walls_loop rooms [] = None)
      by (apply walls_loop_none; now exists r).
    congruence. }
  rewrite (walls_loop_some _ _ F) in H. now injection H as <-.
Qed.

Lemma edges_box (x0 y0 x1 y1 : Q) :
  edges (box x0 y0 x1 y1)
  = [ ((x1, y0), (x1, y1)); ((x1, y1), (x0, y1));
      ((x0, y1), (x0, y0)); ((x0, y0), (x1, y0)) ].
Proof. reflexivity. Qed.





(** ** The keys of the segment map *)

Section DictKeys.
Context {K V : Type}.
Variable eqb : K -> K -> bool.
Hypothesis eqb_sym : forall k k', eqb k k' = eqb k' k.

Local Abbreviation same := (fun a b : K => eqb a b = true).

Lemma dict_set_key_list (d : list (K * V)) (k : K) (v : V) :
  map fst (dict_set eqb d k v)
  = if existsb (fun k' => eqb k' k) (map fst d)
    then map fst d else map fst d ++ [k].
Proof.
  induction d as [|[k0 v0] d IH]; [reflexivity|].
  cbn [dict_set map fst existsb]. destruct (eqb k0 k); cbn [orb map fst].
  - reflexivity.
  - rewrite IH. now destruct (existsb _ (map fst d)).
Qed.

Lemma NoDupA_snoc (l : list K) (k : K) :
  NoDupA same l -> existsb (fun k' => eqb k' k) l = false ->
  NoDupA same (l ++ [k]).
Proof.
  induction 1 as [|x l Hx Hl IH]; cbn [existsb app]; intros E.
  - constructor; [intros X; inversion X|constructor].
  - apply orb_false_iff in E. destruct E as [E1 E2].
    constructor; [|now apply IH].
    intros X. apply InA_app in X. destruct X as [X|X]; [now apply Hx|].
    inversion X as [? ? Y|? ? Y]; subst; [congruence|inversion Y].
Qed.

(** Setting a key never makes two keys of the dictionary equal. *)
Lemma dict_set_NoDupA (d : list (K * V)) (k : K) (v : V) :
  NoDupA same (map fst d) -> NoDupA same (map fst (dict_set eqb d k v)).
Proof.
  intros H. rewrite dict_set_key_list.
  destruct (existsb (fun k' => eqb k' k) (map fst d)) eqn:E;
    [exact H|now apply NoDupA_snoc].
Qed.

Lemma dict_set_key_In (d : list (K * V)) (k : K) (v : V) (k' : K) :
  In k' (map fst (dict_set eqb d k v)) -> In k' (map fst d) \/ k' = k.
Proof.
  rewrite dict_set_key_list. destruct (existsb _ (map fst d)).
  - now left.
  - intros H. apply in_app_or in H. destruct H as [H|[<-|[]]]; auto.
Qed.
End DictKeys.

Lemma record_edge_keys (pw ph : Q) (drawn : DrawnSegments)
      (e : Point * Point) :
  (NoDupA (fun a b => seg_eqb a b = true) (map fst drawn) ->
   NoDupA (fun a b => seg_eqb a b = true)
          (map fst (record_edge pw ph drawn e)))
  /\ (forall k, In k (map fst (record_edge pw ph drawn e)) ->
        In k (map fst drawn) \/ k = canonical (fst e) (snd e)).
Proof.
  unfold record_edge, record_segment.
  destruct (dict_get seg_eqb drawn _) as [t|];
    [destruct (is_ext pw ph (fst e) (snd e))|]; split;
    try (intros H; now apply dict_set_NoDupA);
    try (intros k H; now apply dict_set_key_In in H);
    auto.
Qed.

Lemma fold_record_edge_keys (pw ph : Q) (es : list (Point * Point)) :
  forall drawn,
    NoDupA (fun a b => seg_eqb a b = true) (map fst drawn) ->
    (forall k, In k (map fst drawn) -> canonical (fst k) (snd k) = k) ->
    NoDupA (fun a b => seg_eqb a b = true)
           (map fst (fold_left (record_edge pw ph) es drawn))
    /\ (forall k, In k (map fst (fold_left (record_edge pw ph) es drawn)) ->
          canonical (fst k) (snd k) = k).
Proof.
  induction es as [|e es IH]; intros drawn Hnd Hcan; [now split|].
  cbn [fold_left]. destruct (record_edge_keys pw ph drawn e) as [H1 H2].
  apply IH; [now apply H1|].
  intros k Hk. destruct (H2 k Hk) as [Hin| ->]; [now apply Hcan|].
  destruct (canonical_rounded (fst e) (snd e)) as [Ha Hb].
  unfold canonical at 1. rewrite Ha, Hb. apply sorted2_stable.
Qed.

(** X14.  The segment map holds every wall once and in canonical form:
    no two keys of [drawn_segments] are equal segments, and every key is
    its own canonical segment (its coordinates are rounded to three
    decimals and its end points are in sorted order). *)
Theorem drawn_segments_canonical_and_distinct (rooms : list Room)
        (plot_width plot_height : Q) :
  NoDupA (fun a b => seg_eqb a b = true)
         (map fst (fst (segment_analysis rooms plot_width plot_height)))
  /\ forall seg s_type,
       In (seg, s_type) (fst (segment_analysis rooms plot_width plot_height))
       -> canonical (fst seg) (snd seg) = seg.
Proof.
  rewrite analysis_drawn.
  destruct (fold_record_edge_keys plot_width plot_height
                                  (contributions rooms) [])
    as [H1 H2]; [constructor|intros k []|].
  split; [exact H1|]. intros seg s_type Hin. apply H2.
  apply in_map_iff. now exists (seg, s_type).
Qed.

(** ** Which segment gets the door of a room *)

Lemma insert_longest_In (x y : Segment) (l : list Segment) :
  In y (insert_longest x l) -> y = x \/ In y l.
Proof.
  intros H.
  apply (Permutation_in _ (Permutation_sym (insert_longest_perm x l))) in H.
  destruct H; [left; congruence|now right].
Qed.

Lemma insert_longest_sorted (x : Segment) (l : list Segment) :
  StronglySorted
    (fun a b => dist2 (fst b) (snd b) <= dist2 (fst a) (snd a)) l ->
  StronglySorted
    (fun a b => dist2 (fst b) (snd b) <= dist2 (fst a) (snd a))
    (insert_longest x l).
Proof.
  induction 1 as [|y l Hl IH Hy]; cbn [insert_longest].
  - constructor; constructor.
  - destruct (Qle_bool (dist2 (fst y) (snd y)) (dist2 (fst x) (snd x))) eqn:E.
    + apply Qle_bool_iff in E. constructor; [now constructor|].
      constructor; [exact E|].
      eapply Forall_impl; [|exact Hy]. intros a Ha. cbv beta in *. lra.
    + assert (E' : dist2 (fst x) (snd x) < dist2 (fst y) (snd y)).
      { apply Qnot_le_lt. intros C. apply Qle_bool_iff in C. congruence. }
      constructor; [exact IH|].
      apply Forall_forall. intros a Ha. apply insert_longest_In in Ha.
      destruct Ha as [->|Ha]; [lra|].
      rewrite Forall_forall in Hy. now apply Hy.
Qed.

Lemma sort_longest_first_sorted (l : list Segment) :
  StronglySorted
    (fun a b => dist2 (fst b) (snd b) <= dist2 (fst a) (snd a))
    (sort_longest_first l).
Proof.
  induction l as [|x l IH]; cbn; [constructor|].
  now apply insert_longest_sorted.
Qed.

Lemma sqrt_ltb_mono (s s' c : Q) :
  s <= s' -> sqrt_ltb s' c = true -> sqrt_ltb s c = true.
Proof.
  unfold sqrt_ltb. rewrite !andb_true_iff, !Qltb_lt. intros H [H1 H2].
  split; lra.
Qed.

Lemma long_enough_iff (p1 p2 : Point) :
  sqrt_ltb (dist2 p1 p2) (0.9 + 0.2) = false <-> (1.1 <= length_R p1 p2)%R.
Proof.
  unfold length_R.
  pose proof (sqrt_ltb_spec (dist2 p1 p2) (0.9 + 0.2) (dist2_nonneg p1 p2)) as H.
  rewrite Q2R_door_threshold in H.
  destruct (sqrt_ltb (dist2 p1 p2) (0.9 + 0.2)); split; intros H'.
  - discriminate.
  - assert (sqrt (Q2R (dist2 p1 p2)) < 1.1)%R by now apply H. lra.
  - apply Rnot_lt_le. intros C. apply H in C. discriminate.
  - reflexivity.
Qed.

Lemma length_R_lt (p1 p2 q1 q2 : Point) :
  (length_R p1 p2 < length_R q1 q2)%R -> dist2 p1 p2 < dist2 q1 q2.
Proof.
  unfold length_R. intros H. apply sqrt_lt_0_alt in H. now apply Rlt_Qlt.
Qed.

Section DoorChoice.
Variable drawn : DrawnSegments.

Local Abbreviation sget := (dict_get seg_eqb drawn).
Local Abbreviation d2 s := (dist2 (fst s) (snd s)).

(** What a run of the inner loop does: nothing, or one door on a segment
    that every earlier segment of the list had to leave to it. *)
Lemma try_segments_result (room_name : string) (segments : list Segment) :
  forall st st',
    try_segments drawn room_name segments st = Ok st' ->
    st' = st
    \/ exists pre seg post,
         segments = pre ++ seg :: post
         /\ (forall s, In s pre ->
               sget s = Some exterior
               \/ set_mem (placed_doors st) s = true
               \/ sqrt_ltb (d2 s) (0.9 + 0.2) = true)
         /\ sget seg = Some interior
         /\ set_mem (placed_doors st) seg = false
         /\ sqrt_ltb (d2 seg) (0.9 + 0.2) = false
         /\ st' = mkDoorState
                    (set_add (placed_doors st) seg)
                    (door_log st ++ [(room_name, seg)])
                    (door_msp st ++ [DoorLeaf (fst seg) (snd seg) 0.9;
                                     DoorSwing (fst seg) (snd seg) 0.9]).
Proof.
  induction segments as [|s rest IH]; intros st st' H.
  - cbn in H. injection H as <-. now left.
  - cbn [try_segments] in H. unfold dict_item in H.
    destruct (sget s) as [t|] eqn:G; [|discriminate]. cbn [bind] in H.
    assert (Hskip : forall st0,
               (sget s = Some exterior
                \/ set_mem (placed_doors st) s = true
                \/ sqrt_ltb (d2 s) (0.9 + 0.2) = true) ->
               st0 = st ->
               try_segments drawn room_name rest st0 = Ok st' ->
               st' = st
               \/ exists pre seg post,
                    s :: rest = pre ++ seg :: post
                    /\ (forall s0, In s0 pre ->
                          sget s0 = Some exterior
                          \/ set_mem (placed_doors st) s0 = true
                          \/ sqrt_ltb (d2 s0) (0.9 + 0.2) = true)
                    /\ sget seg = Some interior
                    /\ set_mem (placed_doors st) seg = false
                    /\ sqrt_ltb (d2 seg) (0.9 + 0.2) = false
                    /\ st' = mkDoorState
                               (set_add (placed_doors st) seg)
                               (door_log st ++ [(room_name, seg)])
                               (door_msp st
                                  ++ [DoorLeaf (fst seg) (snd seg) 0.9;
                                      DoorSwing (fst seg) (snd seg) 0.9])).
    { intros st0 Hs -> Hrec. destruct (IH _ _ Hrec) as [->|X]; [now left|].
      destruct X as (pre & seg & post & -> & Hpre & R).
      right. exists (s :: pre), seg, post. split; [reflexivity|].
      split; [|exact R]. intros s0 [<-|Hin]; [exact Hs|now apply Hpre]. }
    destruct (seg_type_eqb t interior) eqn:Et.
    + assert (t = interior) by (destruct t; [discriminate|reflexivity]).
      subst t.
      destruct (set_mem (placed_doors st) s) eqn:Em; cbn [negb andb] in H.
      * apply (Hskip st); auto.
      * unfold add_door_swing in H.
        destruct (sqrt_ltb (d2 s) (0.9 + 0.2)) eqn:El.
        -- apply (Hskip _ ltac:(auto)) in H; [exact H|].
           now destruct st.
        -- injection H as <-. right. exists [], s, rest.
           repeat split; auto; try (intros s0 []).
    + cbn [andb] in H.
      assert (t = exterior) by (destruct t; [reflexivity|discriminate]).
      subst t. apply (Hskip st); auto.
Qed.
End DoorChoice.

Lemma StronglySorted_after {A : Type} (R : A -> A -> Prop) (pre : list A)
      (x : A) (post : list A) :
  StronglySorted R (pre ++ x :: post) -> Forall (R x) post.
Proof.
  induction pre as [|y pre IH]; cbn [app]; intros H;
    inversion H as [|? ? Hs Hf]; subst; [exact Hf|now apply IH].
Qed.

Section DoorsOfAPlan.
Variable drawn : DrawnSegments.

Local Abbreviation sget := (dict_get seg_eqb drawn).
Local Abbreviation d2 s := (dist2 (fst s) (snd s)).

(** Every segment with a door is in the log of the doors. *)
Local Abbreviation logged st :=
  (forall x, set_mem (placed_doors st) x = true ->
             exists d, In d (door_log st) /\ seg_eqb (snd d) x = true).

Lemma place_doors_result (rsegs : RoomSegments) :
  forall st st',
    NoDup (map fst rsegs) ->
    (forall nm, In nm (map fst (door_log st)) -> ~ In nm (map fst rsegs)) ->
    logged st ->
    place_doors drawn rsegs st = Ok st' ->
    exists added,
      door_log st' = door_log st ++ added
      /\ (List.length added <= List.length rsegs)%nat
      /\ forall n seg, In (n, seg) added ->
           exists segs,
             In (n, segs) rsegs /\ In seg segs
             /\ sqrt_ltb (d2 seg) (0.9 + 0.2) = false
             /\ forall seg', In seg' segs -> d2 seg < d2 seg' ->
                  sget seg' = Some exterior
                  \/ exists d, In d (door_log st') /\ fst d <> n
                               /\ seg_eqb (snd d) seg' = true.
Proof.
  induction rsegs as [|[n segs] rest IH]; intros st st' Hnd Hnames HJ H.
  - cbn in H. injection H as <-. exists []. rewrite app_nil_r.
    repeat split; [cbn; lia|]. intros n seg [].
  - cbn [map fst] in Hnd. inversion Hnd as [|? ? Hn Hrest]; subst.
    cbn [place_doors] in H.
    destruct (try_segments drawn n (sort_longest_first segs) st)
      as [st1|e] eqn:E1; [|discriminate].
    cbn [bind] in H.
    destruct (try_segments_result drawn n _ _ _ E1) as [->|X].
    + destruct (IH st st' Hrest) as (added & Hlog & Hlen & Hadd); auto.
      { intros nm Hnm Hin. apply (Hnames nm Hnm). now right. }
      exists added. split; [exact Hlog|]. split; [cbn; lia|].
      intros n0 seg0 Hin. destruct (Hadd n0 seg0 Hin) as (segs0 & H1 & R).
      exists segs0. split; [now right|exact R].
    + destruct X as (pre & seg & post & Esort & Hpre & Hint & Hmem & Hlong
                         & ->).
      set (st1 := mkDoorState
                    (set_add (placed_doors st) seg)
                    (door_log st ++ [(n, seg)])
                    (door_msp st ++ [DoorLeaf (fst seg) (snd seg) 0.9;
                                     DoorSwing (fst seg) (snd seg) 0.9]))
        in *.
      assert (Hn1 : forall nm, In nm (map fst (door_log st1)) ->
                               ~ In nm (map fst rest)).
      { cbn [st1 door_log]. intros nm Hnm Hin. rewrite map_app in Hnm.
        apply in_app_or in Hnm. destruct Hnm as [Hnm|[<-|[]]].
        - apply (Hnames nm Hnm). now right.
        - contradiction. }
      assert (HJ1 : logged st1).
      { cbn [st1 placed_doors door_log]. intros x Hx.
        rewrite set_mem_add in Hx.
        apply orb_true_iff in Hx. destruct Hx as [Hx|Hx].
        - destruct (HJ x Hx) as (d & Hd & Ed). exists d.
          split; [apply in_or_app; now left|exact Ed].
        - exists (n, seg). split; [apply in_or_app; right; now left|].
          cbn [snd]. now rewrite seg_eqb_sym. }
      destruct (IH st1 st' Hrest Hn1 HJ1 H) as (added & Hlog & Hlen & Hadd).
      cbn [st1 door_log] in Hlog. rewrite <- app_assoc in Hlog.
      cbn [app] in Hlog.
      exists ((n, seg) :: added). split; [exact Hlog|]. split; [cbn; lia|].
      intros n0 seg0 [E0|Hin].
      * injection E0 as <- <-. exists segs.
        assert (Hperm := sort_longest_first_perm segs).
        assert (Hsorted := sort_longest_first_sorted segs).
        rewrite Esort in Hperm, Hsorted.
        split; [now left|]. split.
        { eapply Permutation_in; [apply Permutation_sym, Hperm|].
          apply in_or_app. right. now left. }
        split; [exact Hlong|]. intros seg' Hseg' Hlt.
        apply (Permutation_in _ Hperm) in Hseg'.
        apply in_app_or in Hseg'. destruct Hseg' as [Hp|[<-|Hp]].
        -- destruct (Hpre seg' Hp) as [Hx|[Hx|Hx]].
           ++ now left.
           ++ right. destruct (HJ seg' Hx) as (d & Hd & Ed). exists d.
              split; [rewrite Hlog; apply in_or_app; now left|].
              split; [|exact Ed]. intros <-.
              apply (Hnames (fst d)); [now apply in_map|now left].
           ++ exfalso.
              rewrite (sqrt_ltb_mono _ _ _ (Qlt_le_weak _ _ Hlt) Hx) in Hlong.
              discriminate.
        -- exfalso. lra.
        -- exfalso. apply StronglySorted_after in Hsorted.
           rewrite Forall_forall in Hsorted. specialize (Hsorted seg' Hp).
           cbv beta in Hsorted. lra.
      * destruct (Hadd n0 seg0 Hin) as (segs0 & H1 & R).
        exists segs0. split; [now right|exact R].
Qed.
End DoorsOfAPlan.

Lemma dict_get_In (d : RoomSegments) (k : string) (v : list Segment) :
  NoDup (map fst d) -> In (k, v) d -> dict_get String.eqb d k = Some v.
Proof.
  induction d as [|[k0 v0] d IH]; intros Hnd Hin; [destruct Hin|].
  cbn [map fst] in Hnd. inversion Hnd as [|? ? Hk Hd]; subst.
  cbn [dict_get]. destruct Hin as [E|Hin].
  - injection E as -> ->. now rewrite String.eqb_refl.
  - destruct (String.eqb k0 k) eqn:E.
    + apply String.eqb_eq in E. subst k0. exfalso. apply Hk.
      apply in_map_iff. now exists (k, v).
    + now apply IH.
Qed.

Lemma dict_set_length {V : Type} (d : list (string * V)) (k : string)
      (v : V) :
  (List.length (dict_set String.eqb d k v) <= S (List.length d))%nat
  /\ forall v', List.length (dict_set String.eqb (dict_set String.eqb d k v)
                                      k v')
                = List.length (dict_set String.eqb d k v).
Proof.
  induction d as [|[k0 v0] d [IH1 IH2]]; cbn [dict_set].
  - rewrite String.eqb_refl. split; [cbn; lia|reflexivity].
  - destruct (String.eqb k0 k) eqn:E; cbn [dict_set]; rewrite E.
    + split; [cbn; lia|reflexivity].
    + cbn [List.length]. split; [lia|]. intros v'. now rewrite IH2.
Qed.

Lemma analysis_room_count (pw ph : Q) (rooms : list Room) :
  forall st,
    (List.length (snd (fold_left (analyse_room pw ph) rooms st))
     <= List.length (snd st) + List.length rooms)%nat.
Proof.
  induction rooms as [|room rooms IH]; intros st; cbn [fold_left].
  - cbn. lia.
  - specialize (IH (analyse_room pw ph st room)).
    rewrite analyse_room_segments in IH.
    destruct (current_poly room) as [points|].
    + destruct (dict_set_length (snd st) (name room) []) as [L1 L2].
      rewrite L2 in IH. cbn [List.length]. lia.
    + cbn [List.length]. lia.
Qed.

Lemma plan_doors (rooms : list Room) (plot_width plot_height : Q)
      (client_name : string) (plan : Plan) :
  generate_ai_detailed_plan rooms plot_width plot_height client_name = Ok plan ->
  NoDup (map fst (room_segments plan))
  /\ (List.length (room_segments plan) <= List.length rooms)%nat
  /\ (List.length (door_log (doors plan))
      <= List.length (room_segments plan))%nat
  /\ forall n seg, In (n, seg) (door_log (doors plan)) ->
       exists segs,
         In (n, segs) (room_segments plan) /\ In seg segs
         /\ sqrt_ltb (dist2 (fst seg) (snd seg)) (0.9 + 0.2) = false
         /\ forall seg', In seg' segs ->
              dist2 (fst seg) (snd seg) < dist2 (fst seg') (snd seg') ->
              dict_get seg_eqb (drawn_segments plan) seg' = Some exterior
              \/ exists d, In d (door_log (doors plan)) /\ fst d <> n
                           /\ seg_eqb (snd d) seg' = true.
Proof.
  unfold generate_ai_detailed_plan.
  destruct (analysis_invariant plot_width plot_height rooms) as [Hnd _].
  pose proof (analysis_room_count plot_width plot_height rooms ([], []))
    as Hcount.
  fold (segment_analysis rooms plot_width plot_height) in Hcount.
  destruct (segment_analysis rooms plot_width plot_height) as [drawn rsegs].
  cbn [fst snd List.length] in Hnd, Hcount.
  destruct (place_doors drawn rsegs _) as [st|e] eqn:E; [|discriminate].
  cbn [bind]. intros H. injection H as <-.
  cbn [room_segments doors drawn_segments].
  destruct (fun A B => place_doors_result drawn rsegs _ _ Hnd A B E)
    as (added & Hlog & Hlen & Hadd).
  - intros nm [].
  - cbn. discriminate.
  - cbn [door_log app] in Hlog. rewrite Hlog.
    split; [exact Hnd|]. split; [lia|]. split; [exact Hlen|].
    intros n seg Hin. destruct (Hadd n seg Hin) as (segs & R).
    rewrite Hlog in R. now exists segs.
Qed.

(** X15.  A drawing has at most one door per room that was given: the
    number of doors is at most the number of rooms.  Every door is on a
    segment of the room that placed it, and that segment is at least
    0.9 + 0.2 = 1.1 long. *)
Theorem doors_are_few_and_long (rooms : list Room)
        (plot_width plot_height : Q) (client_name : string) (plan : Plan) :
  generate_ai_detailed_plan rooms plot_width plot_height client_name = Ok plan ->
  (List.length (door_log (doors plan)) <= List.length rooms)%nat
  /\ forall room_name seg,
       In (room_name, seg) (door_log (doors plan)) ->
       (1.1 <= length_R (fst seg) (snd seg))%R
       /\ exists segs,
            dict_get String.eqb (room_segments plan) room_name = Some segs
            /\ In seg segs.
Proof.
  intros H. destruct (plan_doors _ _ _ _ _ H) as (Hnd & L1 & L2 & Hd).
  split; [lia|]. intros n seg Hin.
  destruct (Hd n seg Hin) as (segs & Hs & Hseg & Hlong & _).
  split; [now apply long_enough_iff|].
  exists segs. split; [now apply dict_get_In|exact Hseg].
Qed.

(** X16.  The door of a room is on its longest wall that can take one:
    every segment of the room that is strictly longer than the segment
    with the room's door is an exterior segment or carries the door of
    another room. *)
Theorem door_is_on_longest_free_wall (rooms : list Room)
        (plot_width plot_height : Q) (client_name : string) (plan : Plan) :
  generate_ai_detailed_plan rooms plot_width plot_height client_name = Ok plan ->
  forall room_name seg segs seg',
    In (room_name, seg) (door_log (doors plan)) ->
    dict_get String.eqb (room_segments plan) room_name = Some segs ->
    In seg' segs ->
    (length_R (fst seg) (snd seg) < length_R (fst seg') (snd seg'))%R ->
    dict_get seg_eqb (drawn_segments plan) seg' = Some exterior
    \/ exists other s,
         In (other, s) (door_log (doors plan))
         /\ other <> room_name /\ seg_eqb s seg' = true.
Proof.
  intros H n seg segs seg' Hin Hget Hseg' Hlt.
  destruct (plan_doors _ _ _ _ _ H) as (Hnd & _ & _ & Hd).
  destruct (Hd n seg Hin) as (segs0 & Hs & _ & _ & Hlongest).
  rewrite (dict_get_In _ _ _ Hnd Hs) in Hget. injection Hget as <-.
  destruct (Hlongest seg' Hseg' (length_R_lt _ _ _ _ Hlt)) as [X|X];
    [now left|right].
  destruct X as ([other s] & Hd' & Hne & Es). now exists other, s.
Qed.

Lemma scenario_plan_run :
  generate_ai_detailed_plan scenario_placed 12 15 "client" = Ok scenario_plan.
Proof. vm_compute. reflexivity. Qed.

Lemma doors_are_few_and_long_witness :
  (List.length (door_log (doors scenario_plan))
   <= List.length scenario_placed)%nat
  /\ forall room_name seg,
       In (room_name, seg) (door_log (doors scenario_plan)) ->
       (1.1 <= length_R (fst seg) (snd seg))%R
       /\ exists segs,
            dict_get String.eqb (room_segments scenario_plan) room_name
            = Some segs
            /\ In seg segs.
Proof.
  apply (doors_are_few_and_long scenario_placed 12 15 "client").
  exact scenario_plan_run.
Defined.

Lemma length_R_lt_of (p1 p2 q1 q2 : Point) :
  dist2 p1 p2 < dist2 q1 q2 -> (length_R p1 p2 < length_R q1 q2)%R.
Proof.
  intros H. unfold length_R. apply sqrt_lt_1_alt. split.
  - pose proof (Qle_Rle _ _ (dist2_nonneg p1 p2)) as N.
    change (Q2R 0) with (0 * / 1)%R in N. lra.
  - now apply Qlt_Rlt.
Qed.

Lemma door_is_on_longest_free_wall_witness :
  dict_get seg_eqb (drawn_segments scenario_plan)
           ((6857 # 1000, 0 # 1000), (6857 # 1000, 7742 # 1000))
  = Some exterior
  \/ exists other s,
       In (other, s) (door_log (doors scenario_plan))
       /\ other <> "Kitchen"%string
       /\ seg_eqb s ((6857 # 1000, 0 # 1000), (6857 # 1000, 7742 # 1000))
          = true.
Proof.
  apply (door_is_on_longest_free_wall
           scenario_placed 12 15 "client" scenario_plan scenario_plan_run
           "Kitchen"
           ((6857 # 1000, 7742 # 1000), (12000 # 1000, 7742 # 1000))
           [ ((12000 # 1000, 0 # 1000), (12000 # 1000, 7742 # 1000));
             ((6857 # 1000, 7742 # 1000), (12000 # 1000, 7742 # 1000));
             ((6857 # 1000, 0 # 1000), (6857 # 1000, 7742 # 1000));
             ((6857 # 1000, 0 # 1000), (12000 # 1000, 0 # 1000)) ]).
  - vm_compute. right. left. reflexivity.
  - vm_compute. reflexivity.
  - right. right. left. reflexivity.
  - apply length_R_lt_of. reflexivity.
Defined.

(** ** Which walls are drawn, and where *)

(** X18.  On a plot at least 0.24 wide, the exterior wall of a segment
    that lies in the plot on its west edge or on its east edge stays in
    the plot: every line and every hatch corner drawn for it is a point of
    the plot rectangle. *)
Theorem side_walls_stay_inside (plot_width plot_height : Q) (p1 p2 : Point)
        (e : Entity) :
  0.24 <= plot_width ->
  in_plot plot_width plot_height p1 -> in_plot plot_width plot_height p2 ->
  (fst p1 <= 0.01 /\ fst p2 <= 0.01)
  \/ (plot_width - 0.01 <= fst p1 /\ plot_width - 0.01 <= fst p2) ->
  In e (draw_segment plot_width plot_height [] ((p1, p2), exterior)) ->
  match e with
  | Line a b _ =>
      in_plot plot_width plot_height a /\ in_plot plot_width plot_height b
  | Hatch path _ => Forall (in_plot plot_width plot_height) path
  | _ => True
  end.
Proof.
  intros Hw [[A1 A2] [A3 A4]] [[B1 B2] [B3 B4]] Hside Hin.
  unfold draw_segment in Hin. cbn [fst snd] in Hin.
  unfold draw_wall_with_hatch, WALL_THICKNESS in Hin.
  destruct (sqrt_ltb (dist2 p1 p2) 0.001); [destruct Hin|].
  assert (Hdir : (fst p1 <= 0.01
                  /\ offset_dir_of plot_width plot_height p1 = (1, 0))
                 \/ (plot_width - 0.01 <= fst p1
                     /\ plot_width - 0.01 <= fst p2
                     /\ offset_dir_of plot_width plot_height p1 = (-1, 0))).
  { unfold offset_dir_of. destruct (Qle_bool (fst p1) 0.01) eqn:E1.
    - left. split; [now apply Qle_bool_iff|reflexivity].
    - right. destruct Hside as [[S1 S2]|[S1 S2]].
      + apply Qle_bool_iff in S1. congruence.
      + apply Qle_bool_iff in S1. rewrite S1. repeat split; trivial;
          now apply Qle_bool_iff. }
  assert (Hp2 : fst p1 <= 0.01 -> fst p2 <= 0.01).
  { intros X. destruct Hside as [[_ S2]|[S1 _]]; [exact S2|lra]. }
  destruct Hdir as [[D1 E]|(D1 & D2 & E)]; rewrite E in Hin;
    cbn [app In] in Hin;
    destruct Hin as [<-|[<-|[<-|[]]]];
    unfold in_plot; cbn [fst snd];
    repeat (apply Forall_cons || apply Forall_nil || split);
    cbn [fst snd]; try lra;
    try (specialize (Hp2 D1); lra).
Qed.

Lemma side_walls_stay_inside_witness :
  in_plot 12 15 (0 + 1 * 0.23, 0 + 0 * 0.23)
  /\ in_plot 12 15 (0 + 1 * 0.23, 15 + 0 * 0.23).
Proof.
  apply (side_walls_stay_inside
           12 15 (0, 0) (0, 15)
           (Line (0 + 1 * 0.23, 0 + 0 * 0.23) (0 + 1 * 0.23, 15 + 0 * 0.23)
                 "A-WALL")).
  - unfold Qle. simpl. lia.
  - unfold in_plot. cbn [fst snd]. lra.
  - unfold in_plot. cbn [fst snd]. lra.
  - left. cbn [fst]. split; unfold Qle; simpl; lia.
  - vm_compute. right. left. reflexivity.
Defined.

(** ** The layer table *)

Section LayerFacts.
Variable table_key : string -> string.

Local Abbreviation has := (has_layer table_key).

Lemma has_layer_app (layers more : list Layer) (nm : string) :
  has (layers ++ more) nm = has layers nm || has more nm.
Proof.
  unfold has_layer. apply existsb_app.
Qed.

Lemma has_layer_self (l : Layer) : has [l] (layer_name l) = true.
Proof.
  unfold has_layer. cbn. now rewrite String.eqb_refl.
Qed.

Lemma setup_loop_spec (todo : list Layer) :
  forall layers,
    exists added,
      setup_loop table_key todo layers = Some (layers ++ added)
      /\ incl added todo
      /\ (forall a, In a added -> has layers (layer_name a) = false)
      /\ (forall l, In l todo -> has (layers ++ added) (layer_name l) = true).
Proof.
  induction todo as [|l rest IH]; intros layers.
  - exists []. rewrite app_nil_r. repeat split; try easy.
  - cbn [setup_loop]. unfold layers_add.
    destruct (has layers (layer_name l)) eqn:E; cbn [negb].
    + destruct (IH layers) as (added & Hrun & Hincl & Hnew & Hall).
      exists added. split; [exact Hrun|]. split; [now apply incl_tl|].
      split; [exact Hnew|].
      intros l' [<-|Hin]; [|now apply Hall].
      rewrite has_layer_app, E. reflexivity.
    + destruct (IH (layers ++ [l])) as (added & Hrun & Hincl & Hnew & Hall).
      exists (l :: added). rewrite <- app_assoc in Hrun, Hall.
      split; [exact Hrun|]. split.
      { intros a [<-|Ha]; [now left|right; now apply Hincl]. }
      split.
      { intros a [<-|Ha]; [exact E|].
        specialize (Hnew a Ha). rewrite has_layer_app in Hnew.
        now apply orb_false_iff in Hnew. }
      intros l' [<-|Hin]; [|now apply Hall].
      change (layers ++ [l] ++ added) with (layers ++ l :: added).
      rewrite has_layer_app.
      change (l :: added) with ([l] ++ added).
      rewrite has_layer_app, has_layer_self. now rewrite orb_true_r.
Qed.

Lemma setup_loop_nothing_to_do (todo : list Layer) (layers : list Layer) :
  (forall l, In l todo -> has layers (layer_name l) = true) ->
  setup_loop table_key todo layers = Some layers.
Proof.
  induction todo as [|l rest IH]; intros H; [reflexivity|].
  cbn [setup_loop]. rewrite (H l (or_introl eq_refl)). cbn [negb].
  apply IH. intros l' Hl'. apply H. now right.
Qed.
End LayerFacts.

(** X19.  [setup_layers] never runs into the error of adding a layer
    twice, whatever layers the document already has.  It keeps the layers
    of the document as they are and in place, appends only standard layers
    whose names the document did not have, leaves the document with all
    eight standard layers, and a second run changes nothing. *)
Theorem setup_layers_is_safe_and_idempotent (table_key : string -> string)
        (layers : list Layer) :
  exists added,
    setup_layers table_key layers = Some (layers ++ added)
    /\ incl added AIA_LAYERS
    /\ (forall a, In a added ->
          has_layer table_key layers (layer_name a) = false)
    /\ (forall l, In l AIA_LAYERS ->
          has_layer table_key (layers ++ added) (layer_name l) = true)
    /\ setup_layers table_key (layers ++ added) = Some (layers ++ added).
Proof.
  unfold setup_layers.
  destruct (setup_loop_spec table_key AIA_LAYERS layers)
    as (added & Hrun & Hincl & Hnew & Hall).
  exists added. repeat split; try assumption.
  now apply setup_loop_nothing_to_do.
Qed.

(** ** Annotations *)

Lemma room_labels_app (a b : list Annotation) :
  room_labels (a ++ b) = room_labels a ++ room_labels b.
Proof.
  unfold room_labels. apply flat_map_app.
Qed.

(** What the body of the annotation loop adds for one room. *)
Lemma annotate_room_spec (msp : list Annotation) (room : Room) :
  match has_polygon room, center room with
  | false, _ => annotate_room msp room = Some msp
  | true, None => annotate_room msp room = None
  | true, Some c =>
      exists added,
        annotate_room msp room = Some (msp ++ added)
        /\ room_labels added = [name room]
        /\ Forall (fun a => In (annotation_layer a)
                               ["A-ANNO-TEXT"; "A-ANNO-DIMS"]%string) added
        /\ exists h, In (Text (Str (name room)) h "A-ANNO-TEXT" None c) added
  end.
Proof.
  unfold annotate_room, has_polygon.
  destruct (current_poly room) as [[|p poly]|]; try reflexivity.
  destruct (center room) as [[cx cy]|]; [|reflexivity].
  cbv beta iota.
  destruct (bounds (p :: poly)) as [[[x0 y0] x1] y1]. unfold add_dimension.
  destruct (Qle_bool y0 0.01); destruct (Qle_bool x0 0.01);
    rewrite <- ?app_assoc; eexists; (split; [reflexivity|]);
    (split; [reflexivity|]);
    (split; [cbn [app];
             repeat (apply Forall_cons;
                     [cbn [annotation_layer In]; tauto|]);
             apply Forall_nil|]);
    eexists; cbn [app]; left; reflexivity.
Qed.

Lemma annotate_rooms_none (rooms : list Room) :
  forall msp,
    annotate_rooms rooms msp = None <->
    exists r, In r rooms /\ has_polygon r = true /\ center r = None.
Proof.
  induction rooms as [|r rest IH]; intros msp.
  - cbn. split; [discriminate|intros (r & [] & _)].
  - cbn [annotate_rooms]. pose proof (annotate_room_spec msp r) as S.
    destruct (has_polygon r) eqn:Ep;
      [destruct (center r) as [c|] eqn:Ec|].
    + destruct S as (added & -> & _). rewrite IH. split.
      * intros (r' & Hin & H). exists r'. split; [now right|exact H].
      * intros (r' & [<-|Hin] & H1 & H2); [congruence|]. now exists r'.
    + rewrite S. split; [intros _|reflexivity].
      exists r. split; [now left|]. split; [congruence|exact Ec].
    + rewrite S, IH. split.
      * intros (r' & Hin & H). exists r'. split; [now right|exact H].
      * intros (r' & [<-|Hin] & H1 & H2); [congruence|]. now exists r'.
Qed.

Lemma annotate_rooms_some (rooms : list Room) :
  forall msp msp',
    annotate_rooms rooms msp = Some msp' ->
    exists added,
      msp' = msp ++ added
      /\ room_labels added = map name (filter has_polygon rooms)
      /\ Forall (fun a => In (annotation_layer a)
                             ["A-ANNO-TEXT"; "A-ANNO-DIMS"]%string) added
      /\ forall r c,
           In r rooms -> has_polygon r = true -> center r = Some c ->
           exists h, In (Text (Str (name r)) h "A-ANNO-TEXT" None c) added.
Proof.
  induction rooms as [|r rest IH]; intros msp msp' H.
  - cbn in H. injection H as <-. exists []. rewrite app_nil_r.
    repeat split; try easy; try constructor.
  - cbn [annotate_rooms] in H. pose proof (annotate_room_spec msp r) as S.
    destruct (has_polygon r) eqn:Ep;
      [destruct (center r) as [c|] eqn:Ec|].
    + destruct S as (a1 & E1 & L1 & F1 & h1 & T1). rewrite E1 in H.
      destruct (IH _ _ H) as (a2 & -> & L2 & F2 & T2).
      exists (a1 ++ a2). rewrite app_assoc. split; [reflexivity|].
      split; [|split].
      * rewrite room_labels_app, L1, L2. cbn [filter map]. now rewrite Ep.
      * now apply Forall_app.
      * intros r' c' [<-|Hin] Hp Hc.
        -- rewrite Ec in Hc. injection Hc as <-. exists h1.
           apply in_or_app. now left.
        -- destruct (T2 r' c' Hin Hp Hc) as [h Hh]. exists h.
           apply in_or_app. now right.
    + rewrite S in H. discriminate.
    + rewrite S in H. destruct (IH _ _ H) as (a2 & -> & L2 & F2 & T2).
      exists a2. split; [reflexivity|]. split; [|split; [exact F2|]].
      * cbn [filter]. now rewrite Ep.
      * intros r' c' [<-|Hin] Hp Hc; [congruence|].
        now apply (T2 r' c').
Qed.

Lemma annotate_rooms_filter (rooms : list Room) :
  forall msp,
    annotate_rooms rooms msp = annotate_rooms (filter has_polygon rooms) msp.
Proof.
  induction rooms as [|r rest IH]; intros msp; [reflexivity|].
  cbn [annotate_rooms filter]. pose proof (annotate_room_spec msp r) as S.
  destruct (has_polygon r).
  - cbn [annotate_rooms]. destruct (annotate_room msp r); [apply IH|reflexivity].
  - rewrite S. apply IH.
Qed.

(** X20.  The annotation step fails exactly when a room has a polygon
    that is not empty but no centre; a room without a polygon and a room
    whose polygon is empty are passed over, with or without a centre: the
    step does on the rooms what it does on those with a polygon that is not
    empty. *)
Theorem annotate_fails_iff (rooms : list Room) (plot_width plot_height : Q) :
  (annotate rooms plot_width plot_height = None
   <-> exists r poly,
         In r rooms /\ current_poly r = Some poly /\ poly <> []
         /\ center r = None)
  /\ annotate rooms plot_width plot_height
     = annotate (filter has_polygon rooms) plot_width plot_height.
Proof.
  split.
  - unfold annotate.
    assert (Q : annotate_rooms rooms [] = None
                <-> exists r poly,
                      In r rooms /\ current_poly r = Some poly /\ poly <> []
                      /\ center r = None).
    { rewrite annotate_rooms_none. split.
      - intros (r & Hin & Hp & Hc). unfold has_polygon in Hp.
        destruct (current_poly r) as [[|p poly]|] eqn:E; try discriminate.
        exists r, (p :: poly). repeat split; auto. discriminate.
      - intros (r & poly & Hin & Hp & Hne & Hc). exists r.
        split; [exact Hin|]. split; [|exact Hc].
        unfold has_polygon. rewrite Hp. destruct poly; [congruence|].
        reflexivity. }
    rewrite <- Q.
    destruct (annotate_rooms rooms []); split; intros H;
      try discriminate; reflexivity.
  - unfold annotate. now rewrite (annotate_rooms_filter rooms []).
Qed.

(** X21.  On every layout the planner returns the annotation step does not
    fail; it labels every room once, in the order of the layout, and puts
    the label of a room at the centroid of the room's rectangle. *)
Theorem annotate_a_layout (p_w p_d : Q) (reqs : list Room)
        (c : list VastuConstraint) (placed : list Room) :
  generate_layout (p_w, p_d) reqs c = Ok placed ->
  exists notes,
    annotate placed p_w p_d = Some notes
    /\ room_labels notes = map name placed
    /\ forall r, In r placed ->
         exists h,
           In (Text (Str (name r)) h "A-ANNO-TEXT" None
                    (centroid (rect_of r))) notes.
Proof.
  intros H.
  assert (F : forall r, In r placed ->
                exists poly, current_poly r = Some poly
                             /\ center r = Some (centroid poly)
                             /\ has_polygon r = true).
  { intros r Hin. apply generate_layout_inv in H. destruct H as (h & _ & ->).
    apply in_app_or in Hin.
    destruct Hin as [Hin|Hin];
      destruct (row_boxes_In _ _ _ _ _ _ _ Hin) as (req & x0 & x1 & _ & ->);
      eexists; repeat split; reflexivity. }
  unfold annotate.
  destruct (annotate_rooms placed []) as [msp|] eqn:E.
  - destruct (annotate_rooms_some _ _ _ E) as (added & -> & L & _ & T).
    cbn [app] in *. eexists. split; [reflexivity|].
    unfold draw_north_arrow. split.
    + rewrite room_labels_app, L. cbn. rewrite app_nil_r. f_equal.
      apply forallb_filter_id. apply forallb_forall. intros r Hin.
      destruct (F r Hin) as (poly & _ & _ & Hp). exact Hp.
    + intros r Hin. destruct (F r Hin) as (poly & Ep & Ec & Hp).
      destruct (T r _ Hin Hp Ec) as [h Hh]. exists h.
      unfold rect_of. rewrite Ep. apply in_or_app. now left.
  - exfalso. apply annotate_rooms_none in E.
    destruct E as (r & Hin & Hp & Hc).
    destruct (F r Hin) as (poly & _ & Ec & _). congruence.
Qed.

Lemma annotate_a_layout_witness :
  exists placed notes,
    generate_layout scenario_plot scenario_rooms [] = Ok placed
    /\ annotate placed 12 15 = Some notes
    /\ room_labels notes = map name placed
    /\ forall r, In r placed ->
         exists h,
           In (Text (Str (name r)) h "A-ANNO-TEXT" None
                    (centroid (rect_of r))) notes.
Proof.
  destruct (generate_layout_valid 12 15 scenario_rooms [] scenario_rooms_valid)
    as [placed E].
  destruct (annotate_a_layout 12 15 scenario_rooms [] placed E)
    as (notes & H).
  exists placed, notes. split; [exact E|exact H].
Defined.

(** ** The layers a drawing uses *)

Lemma setup_layers_names (table_key : string -> string)
      (layers layers' : list Layer) (nm : string) :
  setup_layers table_key layers = Some layers' ->
  In nm (map layer_name AIA_LAYERS) ->
  has_layer table_key layers' nm = true.
Proof.
  unfold setup_layers. intros H Hin.
  destruct (setup_loop_spec table_key AIA_LAYERS layers)
    as (added & Hrun & _ & _ & Hall).
  rewrite Hrun in H. injection H as <-.
  apply in_map_iff in Hin. destruct Hin as (l & <- & Hl). now apply Hall.
Qed.

Lemma draw_wall_layers (msp : list Entity) (p1 p2 : Point) (thickness : Q)
      (offset_dir : option (Q * Q)) :
  Forall (fun e => incl (entity_layers e) (map layer_name AIA_LAYERS)) msp ->
  Forall (fun e => incl (entity_layers e) (map layer_name AIA_LAYERS))
         (draw_wall_with_hatch msp p1 p2 thickness offset_dir).
Proof.
  intros H. unfold draw_wall_with_hatch.
  destruct (sqrt_ltb _ _); [exact H|].
  destruct offset_dir as [[vx vy]|]; apply Forall_app; split; trivial;
    repeat (apply Forall_cons; [intros lyr Hl; cbn in Hl |- *; tauto|]);
    apply Forall_nil.
Qed.

Lemma draw_walls_layers (pw ph : Q) (drawn : DrawnSegments) :
  forall msp,
    Forall (fun e => incl (entity_layers e) (map layer_name AIA_LAYERS)) msp ->
    Forall (fun e => incl (entity_layers e) (map layer_name AIA_LAYERS))
           (draw_walls pw ph drawn msp).
Proof.
  unfold draw_walls. induction drawn as [|[seg t] drawn IH]; intros msp H;
    [exact H|].
  cbn [fold_left]. apply IH. unfold draw_segment.
  destruct t; now apply draw_wall_layers.
Qed.

Lemma place_doors_layers (drawn : DrawnSegments) (rsegs : RoomSegments) :
  forall st st',
    place_doors drawn rsegs st = Ok st' ->
    Forall (fun e => incl (entity_layers e) (map layer_name AIA_LAYERS))
           (door_msp st) ->
    Forall (fun e => incl (entity_layers e) (map layer_name AIA_LAYERS))
           (door_msp st').
Proof.
  induction rsegs as [|[n segs] rest IH]; intros st st' H F.
  - cbn in H. now injection H as <-.
  - cbn [place_doors] in H.
    destruct (try_segments drawn n (sort_longest_first segs) st)
      as [st1|e] eqn:E1; [|discriminate].
    cbn [bind] in H. apply (IH _ _ H).
    destruct (try_segments_result drawn n _ _ _ E1) as [->|X]; [exact F|].
    destruct X as (pre & seg & post & _ & _ & _ & _ & _ & ->).
    cbn [door_msp]. apply Forall_app. split; [exact F|].
    repeat (apply Forall_cons; [intros lyr Hl; cbn in Hl |- *; tauto|]).
    apply Forall_nil.
Qed.

(** X22.  Every layer a drawing uses is in the layer table that
    [setup_layers] leaves behind: each line, hatch, wall and door of steps
    2 and 3 and each annotation of step 4 is on a layer the table holds. *)
Theorem drawing_uses_defined_layers (table_key : string -> string)
        (layers layers' : list Layer) (rooms : list Room)
        (plot_width plot_height : Q) (client_name : string) (plan : Plan)
        (notes : list Annotation) :
  setup_layers table_key layers = Some layers' ->
  generate_ai_detailed_plan rooms plot_width plot_height client_name = Ok plan ->
  annotate rooms plot_width plot_height = Some notes ->
  (forall e lyr,
      In e (door_msp (doors plan)) -> In lyr (entity_layers e) ->
      has_layer table_key layers' lyr = true)
  /\ (forall a, In a notes ->
        has_layer table_key layers' (annotation_layer a) = true).
Proof.
  intros Hsetup Hplan Hnotes. split.
  - intros e lyr He Hl. apply (setup_layers_names _ _ _ _ Hsetup).
    unfold generate_ai_detailed_plan in Hplan.
    destruct (segment_analysis rooms plot_width plot_height) as [drawn rsegs].
    destruct (place_doors drawn rsegs _) as [st|x] eqn:E; [|discriminate].
    cbn [bind] in Hplan. injection Hplan as <-. cbn [doors] in He.
    pose proof (place_doors_layers drawn rsegs _ _ E) as F.
    cbn [door_msp] in F.
    specialize (F (draw_walls_layers _ _ _ [] (Forall_nil _))).
    rewrite Forall_forall in F. now apply (F e He).
  - intros a Ha. apply (setup_layers_names _ _ _ _ Hsetup).
    unfold annotate in Hnotes.
    destruct (annotate_rooms rooms []) as [msp|] eqn:E; [|discriminate].
    injection Hnotes as <-.
    destruct (annotate_rooms_some _ _ _ E) as (added & -> & _ & F & _).
    cbn [app] in Ha. unfold draw_north_arrow in Ha.
    apply in_app_or in Ha. destruct Ha as [Ha|Ha].
    + rewrite Forall_forall in F. specialize (F a Ha). cbn in F |- *. tauto.
    + cbn [In] in Ha. destruct Ha as [<-|[<-|[<-|[]]]]; cbn; tauto.
Qed.

Lemma drawing_uses_defined_layers_witness :
  exists layers' notes,
    setup_layers lower [] = Some layers'
    /\ annotate scenario_placed 12 15 = Some notes
    /\ (forall e lyr,
           In e (door_msp (doors scenario_plan)) -> In lyr (entity_layers e) ->
           has_layer lower layers' lyr = true)
    /\ (forall a, In a notes ->
           has_layer lower layers' (annotation_layer a) = true).
Proof.
  do 2 eexists. split; [vm_compute; reflexivity|].
  split; [vm_compute; reflexivity|].
  apply (drawing_uses_defined_layers
           lower [] _ scenario_placed 12 15 "client" scenario_plan).
  - vm_compute. reflexivity.
  - exact scenario_plan_run.
  - vm_compute. reflexivity.
Defined.

(** ** The rows fill the plot *)

Lemma sum_map_ext {A : Type} (f g : A -> Q) (l : list A) :
  (forall a, In a l -> f a == g a) -> sum (map f l) == sum (map g l).
Proof.
  induction l as [|x l IH]; intros H; [reflexivity|].
  cbn [map]. rewrite !sum_cons, IH, (H x (or_introl eq_refl)).
  - reflexivity.
  - intros a Ha. apply H. now right.
Qed.

Lemma sum_map_share (total p_w : Q) (l : list Room) :
  ~ total == 0 ->
  sum (map (fun r => rep_w r / total * p_w) l)
  == sum (map rep_w l) / total * p_w.
Proof.
  intros Ht. induction l as [|x l IH].
  - unfold sum. simpl. field. exact Ht.
  - cbn [map]. rewrite !sum_cons, IH. field. exact Ht.
Qed.

Lemma row_width_sum (p_w total y0 y1 : Q) (rooms : list Room) :
  0 < total -> 0 <= p_w -> y0 <= y1 ->
  Forall (fun r => 0 < rep_w r) rooms ->
  0 + sum (map rep_w rooms) / total * p_w == p_w ->
  sum (map width_of (row_boxes p_w total y0 y1 0 rooms)) == p_w.
Proof.
  intros Ht Hpw Hy Hpos Hfill.
  rewrite (sum_map_ext width_of (fun r => rep_w r / total * p_w)).
  - rewrite sum_map_share by lra.
    rewrite row_boxes_rep_w. lra.
  - intros r Hin.
    now destruct (row_sizes p_w total y0 y1 Ht Hpw Hy rooms 0 Hpos Hfill r Hin).
Qed.

Lemma filter_none {A : Type} (f : A -> bool) (l : list A) :
  (forall a, In a l -> f a = false) -> filter f l = [].
Proof.
  induction l as [|x l IH]; intros H; [reflexivity|].
  cbn [filter]. rewrite (H x (or_introl eq_refl)). apply IH.
  intros a Ha. apply H. now right.
Qed.

Lemma filter_all {A : Type} (f : A -> bool) (l : list A) :
  (forall a, In a l -> f a = true) -> filter f l = l.
Proof.
  induction l as [|x l IH]; intros H; [reflexivity|].
  cbn [filter]. rewrite (H x (or_introl eq_refl)). f_equal. apply IH.
  intros a Ha. apply H. now right.
Qed.

(** X23.  For a plot of positive size and rooms with positive dimensions,
    the widths of the rooms of each row that is not empty add up to the
    plot width, and the height of any room of the bottom row and the
    height of any room of the top row add up to the plot depth. *)
Theorem rows_fill_the_plot (p_w p_d : Q) (reqs : list Room)
        (c : list VastuConstraint) (placed : list Room) :
  0 < p_w -> 0 < p_d -> Forall valid_room reqs ->
  generate_layout (p_w, p_d) reqs c = Ok placed ->
  (top_rooms_of reqs <> [] ->
   sum (map width_of (filter is_top placed)) == p_w)
  /\ (bottom_rooms_of reqs <> [] ->
      sum (map width_of (filter (fun r => negb (is_top r)) placed)) == p_w)
  /\ (forall b t,
         In b placed -> In t placed -> is_top b = false -> is_top t = true ->
         height_of b + height_of t == p_d).
Proof.
  intros Hpw Hpd Hvalid E.
  apply generate_layout_inv in E. destruct E as (h & Eh & ->).
  destruct (rows_Forall _ _ Hvalid) as [Hb Ht].
  destruct (h_top_of_valid p_d _ _ Ht Hb) as (h' & Eh' & _ & _ & Hrange).
  rewrite Eh in Eh'. injection Eh' as <-.
  destruct (Hrange ltac:(lra)) as [Hh0 Hh1].
  pose proof (total_w_pos _ Hb) as HwB. pose proof (total_w_pos _ Ht) as HwT.
  pose proof (valid_positive _ Hb) as HpB.
  pose proof (valid_positive _ Ht) as HpT.
  set (rowB := row_boxes p_w (total_w (bottom_rooms_of reqs)) 0 (p_d - h) 0
                         (bottom_rooms_of reqs)).
  set (rowT := row_boxes p_w (total_w (top_rooms_of reqs)) (p_d - h) p_d 0
                         (top_rooms_of reqs)).
  assert (TB : forall r, In r rowB -> is_top r = false)
    by (apply row_boxes_is_top, bottom_rooms_are_bottom).
  assert (TT : forall r, In r rowT -> is_top r = true)
    by (apply row_boxes_is_top, top_rooms_are_top).
  split; [|split].
  - intros Hne. rewrite filter_app, (filter_none _ rowB TB), (filter_all _ _ TT).
    cbn [app]. apply row_width_sum; try lra; try assumption.
    now apply total_w_fills.
  - intros Hne. rewrite filter_app.
    rewrite (filter_all _ rowB), (filter_none _ rowT).
    + rewrite app_nil_r. apply row_width_sum; try lra; try assumption.
      now apply total_w_fills.
    + intros r Hr. now rewrite (TT r Hr).
    + intros r Hr. now rewrite (TB r Hr).
  - intros b t Hb' Ht' Fb Ft.
    apply in_app_or in Hb'. destruct Hb' as [Hb'|Hb'];
      [|rewrite (TT b Hb') in Fb; discriminate].
    apply in_app_or in Ht'. destruct Ht' as [Ht'|Ht'];
      [rewrite (TB t Ht') in Ft; discriminate|].
    assert (NB : bottom_rooms_of reqs <> []).
    { intros X. unfold rowB in Hb'. rewrite X in Hb'. destruct Hb'. }
    assert (NT : top_rooms_of reqs <> []).
    { intros X. unfold rowT in Ht'. rewrite X in Ht'. destruct Ht'. }
    destruct (row_sizes p_w _ 0 (p_d - h) HwB ltac:(lra) ltac:(lra) _ 0 HpB
                        (total_w_fills _ p_w NB Hb) b Hb') as [_ H1].
    destruct (row_sizes p_w _ (p_d - h) p_d HwT ltac:(lra) ltac:(lra) _ 0 HpT
                        (total_w_fills _ p_w NT Ht) t Ht') as [_ H2].
    rewrite H1, H2. ring.
Qed.

Lemma rows_fill_the_plot_witness :
  exists placed,
    generate_layout (12, 15) scenario_rooms [] = Ok placed
    /\ (top_rooms_of scenario_rooms <> [] ->
        sum (map width_of (filter is_top placed)) == 12)
    /\ (bottom_rooms_of scenario_rooms <> [] ->
        sum (map width_of (filter (fun r => negb (is_top r)) placed)) == 12)
    /\ (forall b t,
           In b placed -> In t placed -> is_top b = false -> is_top t = true ->
           height_of b + height_of t == 15).
Proof.
  destruct (generate_layout_valid 12 15 scenario_rooms [] scenario_rooms_valid)
    as [placed E].
  exists placed. split; [exact E|].
  apply (rows_fill_the_plot 12 15 scenario_rooms [] placed);
    [reflexivity|reflexivity|exact scenario_rooms_valid|exact E].
Defined.

(** ** Rounding *)

Lemma round_half_even_close (y : Q) :
  - (1 # 2) <= inject_Z (round_half_even y) - y
  /\ inject_Z (round_half_even y) - y <= 1 # 2.
Proof.
  unfold round_half_even. cbv zeta.
  pose proof (Qfloor_le y) as Hle. pose proof (Qlt_floor y) as Hlt.
  rewrite inject_Z_plus in Hlt.
  change (inject_Z 1) with 1 in Hlt.
  destruct (Qcompare_spec (y - inject_Z (Qfloor y)) (1 # 2)) as [E|L|G].
  - destruct (Z.even (Qfloor y)); [split; lra|].
    rewrite inject_Z_plus. change (inject_Z 1) with 1. split; lra.
  - split; lra.
  - rewrite inject_Z_plus. change (inject_Z 1) with 1. split; lra.
Qed.

Lemma round3_close (x : Q) :
  - (1 # 2000) <= round3 x - x /\ round3 x - x <= 1 # 2000.
Proof.
  destruct (round_half_even_close (x * 1000)) as [H1 H2].
  unfold round3.
  assert (E : (round_half_even (x * 1000) # 1000) * 1000
              == inject_Z (round_half_even (x * 1000))).
  { unfold Qeq, Qmult, inject_Z. cbn [Qnum Qden]. lia. }
  split; lra.
Qed.

Lemma round_point_near (p : Point) : near (round_point p) p.
Proof.
  unfold near, round_point. cbn [fst snd].
  split; apply round3_close.
Qed.

(** X24.  Canonicalisation keeps a segment where it is: the two end
    points of the canonical segment are the two end points of the edge, in
    one order or the other, each moved by at most 0.0005 in each
    coordinate. *)
Theorem canonical_stays_near (p1 p2 : Point) :
  (near (fst (canonical p1 p2)) p1 /\ near (snd (canonical p1 p2)) p2)
  \/ (near (fst (canonical p1 p2)) p2 /\ near (snd (canonical p1 p2)) p1).
Proof.
  unfold canonical, sorted2.
  destruct (point_ltb (round_point p2) (round_point p1)); cbn [fst snd].
  - right. split; apply round_point_near.
  - left. split; apply round_point_near.
Qed.

(** ** The planner's layout in the drafting engine *)

Lemma row_neighbours_share (p_w total y0 y1 : Q) (rooms : list Room) (cx : Q)
      (i : nat) (r r' : Room) :
  nth_error (row_boxes p_w total y0 y1 cx rooms) i = Some r ->
  nth_error (row_boxes p_w total y0 y1 cx rooms) (S i) = Some r' ->
  exists e e',
    In e (room_edges r) /\ In e' (room_edges r')
    /\ fst e = snd e' /\ snd e = fst e'
    /\ canonical (fst e) (snd e) = canonical (fst e') (snd e').
Proof.
  intros H H'.
  destruct (row_boxes_chain _ _ _ _ _ _ _ _ _ H H')
    as (x0 & x1 & x2 & E & E').
  exists ((x1, y0), (x1, y1)), ((x1, y1), (x1, y0)).
  unfold room_edges. rewrite E, E', !edges_box. cbn [fst snd].
  split; [now left|]. split; [right; right; now left|].
  split; [reflexivity|]. split; [reflexivity|].
  unfold canonical. symmetry. apply sorted2_direction.
Qed.

(** X25.  Two rooms that follow each other in a row of a layout share a
    wall: the first has an edge that the second has too, walked the other
    way round, and the two edges have one and the same canonical segment,
    so the segment analysis records their partition wall once. *)
Theorem neighbours_share_a_wall (p_w p_d : Q) (reqs : list Room)
        (c : list VastuConstraint) (placed : list Room) (i : nat)
        (r r' : Room) :
  generate_layout (p_w, p_d) reqs c = Ok placed ->
  nth_error placed i = Some r -> nth_error placed (S i) = Some r' ->
  is_top r = is_top r' ->
  exists e e',
    In e (room_edges r) /\ In e' (room_edges r')
    /\ fst e = snd e' /\ snd e = fst e'
    /\ canonical (fst e) (snd e) = canonical (fst e') (snd e').
Proof.
  intros H Hi Hi' Hrow.
  apply generate_layout_inv in H. destruct H as (h & _ & ->).
  set (rowB := row_boxes p_w (total_w (bottom_rooms_of reqs)) 0 (p_d - h) 0
                         (bottom_rooms_of reqs)) in *.
  set (rowT := row_boxes p_w (total_w (top_rooms_of reqs)) (p_d - h) p_d 0
                         (top_rooms_of reqs)) in *.
  assert (TB : forall x, In x rowB -> is_top x = false)
    by (apply row_boxes_is_top, bottom_rooms_are_bottom).
  assert (TT : forall x, In x rowT -> is_top x = true)
    by (apply row_boxes_is_top, top_rooms_are_top).
  destruct (Nat.lt_ge_cases (S i) (List.length rowB)) as [L|L].
  - rewrite nth_error_app1 in Hi, Hi' by lia.
    exact (row_neighbours_share _ _ _ _ _ _ _ _ _ Hi Hi').
  - destruct (Nat.lt_ge_cases i (List.length rowB)) as [L'|L'].
    + rewrite nth_error_app1 in Hi by lia.
      rewrite nth_error_app2 in Hi' by lia.
      apply nth_error_In in Hi, Hi'.
      rewrite (TB _ Hi), (TT _ Hi') in Hrow. discriminate.
    + rewrite nth_error_app2 in Hi, Hi' by lia.
      replace (S i - List.length rowB)%nat
        with (S (i - List.length rowB)) in Hi' by lia.
      exact (row_neighbours_share _ _ _ _ _ _ _ _ _ Hi Hi').
Qed.

Lemma neighbours_share_a_wall_witness :
  exists placed r r',
    generate_layout scenario_plot scenario_rooms [] = Ok placed
    /\ nth_error placed 0 = Some r /\ nth_error placed 1 = Some r'
    /\ exists e e',
         In e (room_edges r) /\ In e' (room_edges r')
         /\ fst e = snd e' /\ snd e = fst e'
         /\ canonical (fst e) (snd e) = canonical (fst e') (snd e').
Proof.
  do 3 eexists. split; [vm_compute; reflexivity|].
  split; [reflexivity|]. split; [reflexivity|].
  eapply (neighbours_share_a_wall 12 15 scenario_rooms [] _ 0%nat).
  - vm_compute. reflexivity.
  - reflexivity.
  - reflexivity.
  - reflexivity.
Defined.



